(** * awscurl: the request pipeline of [main.go], embedded in Rocq

    The program is one function, [runCurl], which loads an AWS configuration,
    builds an HTTP request from the command-line flags, hashes the body,
    asks the AWS SDK signer to sign the request and sends it.  The embedding
    keeps the order of these steps and records each call to a collaborator
    (SDK, file system, network, standard streams) in a trace. *)

From Stdlib Require Import ZArith List Bool Lia.
From Stdlib.Strings Require Import String Ascii Byte.
From Stdlib.Numbers Require Import DecimalString.
Import ListNotations.

Local Open Scope string_scope.
Local Open Scope list_scope.
Local Open Scope Z_scope.

(** ** [crypto/sha256], as FIPS 180-4 over 32-bit words kept in [Z] *)

Module SHA256.

Definition mask32 : Z := 0xffffffff.
Definition wrap32 (x : Z) : Z := Z.land x mask32.
Definition add32 (x y : Z) : Z := wrap32 (x + y).
Definition not32 (x : Z) : Z := Z.lxor x mask32.
Definition rotr (n x : Z) : Z :=
  Z.lor (Z.shiftr x n) (wrap32 (Z.shiftl x (32 - n))).
Definition shr (n x : Z) : Z := Z.shiftr x n.

Definition Ch (x y z : Z) : Z := Z.lxor (Z.land x y) (Z.land (not32 x) z).
Definition Maj (x y z : Z) : Z :=
  Z.lxor (Z.lxor (Z.land x y) (Z.land x z)) (Z.land y z).
Definition Sigma0 (x : Z) : Z := Z.lxor (Z.lxor (rotr 2 x) (rotr 13 x)) (rotr 22 x).
Definition Sigma1 (x : Z) : Z := Z.lxor (Z.lxor (rotr 6 x) (rotr 11 x)) (rotr 25 x).
Definition sigma0 (x : Z) : Z := Z.lxor (Z.lxor (rotr 7 x) (rotr 18 x)) (shr 3 x).
Definition sigma1 (x : Z) : Z := Z.lxor (Z.lxor (rotr 17 x) (rotr 19 x)) (shr 10 x).

(** The constants of the standard are not listed but derived, as the
    standard defines them: the round constants are the first 32 bits of the
    fractional parts of the cube roots of the first 64 primes, the initial
    hash value those of the square roots of the first 8 primes. *)
Definition is_prime (n : Z) : bool :=
  forallb (fun d => negb (n mod d =? 0))
          (map Z.of_nat (seq 2 (Z.to_nat (Z.sqrt n) - 1))).

Definition primes : list Z :=
  Eval vm_compute in filter is_prime (map Z.of_nat (seq 2 310)).

(** The integer cube root, one bit at a time from the top. *)
Fixpoint cbrt_bits (b : nat) (n r : Z) : Z :=
  match b with
  | O => r
  | S b' =>
      let r' := r + 2 ^ Z.of_nat b' in
      cbrt_bits b' n (if r' * r' * r' <=? n then r' else r)
  end.

Definition frac_cbrt (p : Z) : Z := Z.land (cbrt_bits 35 (p * 2 ^ 96) 0) mask32.
Definition frac_sqrt (p : Z) : Z := Z.land (Z.sqrt (p * 2 ^ 64)) mask32.

Definition K : list Z := Eval vm_compute in map frac_cbrt primes.

Definition init : list Z := Eval vm_compute in map frac_sqrt (firstn 8 primes).

(** Padding: a [0x80] byte, zero bytes up to 56 modulo 64, then the length
    of the message in bits as a 64-bit big-endian integer. *)
Definition be_bytes (n : nat) (x : Z) : list Z :=
  map (fun i => Z.land (Z.shiftr x (8 * Z.of_nat i)) 0xff) (rev (seq 0 n)).

Definition pad (msg : list Z) : list Z :=
  let len := Z.of_nat (List.length msg) in
  let zeros := Z.to_nat ((55 - len) mod 64) in
  msg ++ [0x80] ++ repeat 0 zeros ++ be_bytes 8 (Z.land (8 * len) 0xffffffffffffffff).

Definition word_of_bytes (b : list Z) : Z :=
  fold_left (fun acc x => Z.lor (Z.shiftl acc 8) x) b 0.

(** [words n bs] reads the first [n] big-endian 32-bit words of [bs]. *)
Fixpoint words (n : nat) (bs : list Z) : list Z :=
  match n with
  | O => []
  | S n' => word_of_bytes (firstn 4 bs) :: words n' (skipn 4 bs)
  end.

(** The message schedule is kept most recent word first, so that
    [W(t-2)], [W(t-7)], [W(t-15)] and [W(t-16)] sit at fixed positions. *)
Fixpoint schedule (n : nat) (w : list Z) : list Z :=
  match n with
  | O => w
  | S n' =>
      let wt := add32 (add32 (sigma1 (nth 1 w 0)) (nth 6 w 0))
                      (add32 (sigma0 (nth 14 w 0)) (nth 15 w 0)) in
      schedule n' (wt :: w)
  end.

Record regs : Type := Regs
  { ra : Z; rb : Z; rc : Z; rd : Z; re : Z; rf : Z; rg : Z; rh : Z }.

Definition round (r : regs) (kw : Z * Z) : regs :=
  let (k, w) := kw in
  let t1 := add32 (add32 (add32 (rh r) (Sigma1 (re r)))
                         (add32 (Ch (re r) (rf r) (rg r)) k)) w in
  let t2 := add32 (Sigma0 (ra r)) (Maj (ra r) (rb r) (rc r)) in
  Regs (add32 t1 t2) (ra r) (rb r) (rc r) (add32 (rd r) t1) (re r) (rf r) (rg r).

Definition regs_of (h : list Z) : regs :=
  Regs (nth 0 h 0) (nth 1 h 0) (nth 2 h 0) (nth 3 h 0)
       (nth 4 h 0) (nth 5 h 0) (nth 6 h 0) (nth 7 h 0).

Definition list_of (r : regs) : list Z :=
  [ra r; rb r; rc r; rd r; re r; rf r; rg r; rh r].

Definition block (h : list Z) (blk : list Z) : list Z :=
  let w := rev (schedule 48 (rev (words 16 blk))) in
  let r := fold_left round (combine K w) (regs_of h) in
  map (fun p => add32 (fst p) (snd p)) (combine h (list_of r)).

(** The digest of the padded message, 64 bytes at a time.  The fuel is the
    number of blocks, which [sum] computes from the length. *)
Fixpoint blocks (n : nat) (h : list Z) (bs : list Z) : list Z :=
  match n with
  | O => h
  | S n' => blocks n' (block h (firstn 64 bs)) (skipn 64 bs)
  end.

Definition sum (msg : list Z) : list Z :=
  let p := pad msg in
  flat_map (be_bytes 4) (blocks (List.length p / 64) init p).

End SHA256.

(** ** Bytes, strings and [fmt.Sprintf("%x", ...)] *)

Definition bytes : Type := list byte.

Definition Z_of_byte (b : byte) : Z := Z.of_N (Byte.to_N b).

Definition hex_digit (d : Z) : ascii :=
  if d <? 10 then ascii_of_N (Z.to_N (48 + d)) else ascii_of_N (Z.to_N (87 + d)).

(** [%x] on a byte slice: two lower-case hexadecimal digits per byte. *)
Fixpoint Sprintf_x (b : list Z) : string :=
  match b with
  | [] => EmptyString
  | x :: b' => String (hex_digit (Z.shiftr x 4))
                 (String (hex_digit (Z.land x 0xf)) (Sprintf_x b'))
  end.

(** [hashSHA256]: a fresh SHA-256 state, one [Write] of the whole content,
    the digest printed in hexadecimal. *)
Definition hashSHA256 (content : bytes) : string :=
  Sprintf_x (SHA256.sum (map Z_of_byte content)).

(** ** The [strings] functions the program calls

    A Go string is a sequence of bytes; so is a Rocq [string]. *)

Definition HasPrefix (s p : string) : bool := String.prefix p s.

(** [s[1:]] *)
Definition from1 (s : string) : string :=
  match s with
  | EmptyString => EmptyString
  | String _ s' => s'
  end.

(** [strings.Split(s, sep)] for a separator of one byte, which is how the
    program calls it: one more part than there are separators in [s]. *)
Fixpoint Split (s : string) (sep : ascii) : list string :=
  match s with
  | EmptyString => [EmptyString]
  | String c s' =>
      if Ascii.eqb c sep then EmptyString :: Split s' sep
      else match Split s' sep with
           | [] => [String c EmptyString]
           | p :: ps => String c p :: ps
           end
  end.

(** [strings.TrimSpace] removes leading and trailing white space as
    [unicode.IsSpace] defines it, on the UTF-8 encoding of the string.  The
    table lists the encodings of the code points that are spaces: the six
    ASCII ones, U+0085, U+00A0, U+1680, U+2000 to U+200A, U+2028, U+2029,
    U+202F, U+205F and U+3000. *)
Definition space_encodings : list (list Z) :=
  [ [0x09]; [0x0a]; [0x0b]; [0x0c]; [0x0d]; [0x20];
    [0xc2; 0x85]; [0xc2; 0xa0]; [0xe1; 0x9a; 0x80];
    [0xe2; 0x80; 0x80]; [0xe2; 0x80; 0x81]; [0xe2; 0x80; 0x82];
    [0xe2; 0x80; 0x83]; [0xe2; 0x80; 0x84]; [0xe2; 0x80; 0x85];
    [0xe2; 0x80; 0x86]; [0xe2; 0x80; 0x87]; [0xe2; 0x80; 0x88];
    [0xe2; 0x80; 0x89]; [0xe2; 0x80; 0x8a]; [0xe2; 0x80; 0xa8];
    [0xe2; 0x80; 0xa9]; [0xe2; 0x80; 0xaf]; [0xe2; 0x81; 0x9f];
    [0xe3; 0x80; 0x80] ].

Definition code (c : ascii) : Z := Z.of_N (N_of_ascii c).

(** [strip p s] is what follows [p] in [s] when [s] starts with [p]. *)
Fixpoint strip (p : list Z) (s : list ascii) : option (list ascii) :=
  match p, s with
  | [], _ => Some s
  | _ :: _, [] => None
  | x :: p', c :: s' => if code c =? x then strip p' s' else None
  end.

Fixpoint strip_first (ps : list (list Z)) (s : list ascii) : option (list ascii) :=
  match ps with
  | [] => None
  | p :: ps' =>
      match strip p s with
      | Some s' => Some s'
      | None => strip_first ps' s
      end
  end.

(** One space is removed per unit of fuel; the length of the string is
    enough, since every space takes at least one byte. *)
Fixpoint trim_left (ps : list (list Z)) (fuel : nat) (s : list ascii) : list ascii :=
  match fuel with
  | O => s
  | S fuel' =>
      match strip_first ps s with
      | Some s' => trim_left ps fuel' s'
      | None => s
      end
  end.

Definition TrimLeftSpace (s : list ascii) : list ascii :=
  trim_left space_encodings (List.length s) s.

(** Trailing spaces are the leading ones of the reversed string, with the
    encodings read backwards. *)
Definition TrimRightSpace (s : list ascii) : list ascii :=
  rev (trim_left (map (@rev Z) space_encodings) (List.length s) (rev s)).

Definition TrimSpace (s : string) : string :=
  string_of_list_ascii (TrimRightSpace (TrimLeftSpace (list_ascii_of_string s))).

(** ** Data of the program *)

(** [awsCURLFlags]: the values of the command-line flags. *)
Record awsCURLFlags : Type := {
  headers : list string;
  method : string;
  data : string;
  awsAccessKey : string;
  awsSecretKey : string;
  awsSessionToken : string;
  awsProfile : string;
  awsService : string;
  awsRegion : string;
  insecure : bool;
  proxy : string
}.

(** The errors [runCurl] returns: three it builds itself with [fmt.Errorf],
    and the errors of its collaborators, which it returns as they are. *)
Inductive error : Type :=
| OnlyOneURL (given : nat)
| UnableToLoadConfig (cause : string)
| InvalidHeader (h : string)
| External (msg : string).

Inductive result (A : Type) : Type :=
| Ok (a : A)
| Fail (e : error).
Arguments Ok {A} a.
Arguments Fail {A} e.

(** An [io.Reader]: the bytes it still has to deliver, and the error that
    ends the reading, if it does not end with [io.EOF]. *)
Record Reader : Type := {
  unread : bytes;
  failure : option string
}.

(** [strings.NewReader] and [bytes.NewReader] *)
Definition strings_NewReader (s : string) : Reader :=
  {| unread := list_byte_of_string s; failure := None |}.
Definition bytes_NewReader (b : bytes) : Reader :=
  {| unread := b; failure := None |}.

(** A reader that has been read to its end has nothing more to give; what
    ended the reading still ends it. *)
Definition drained (r : Reader) : Reader :=
  {| unread := []; failure := failure r |}.

(** [ioutil.ReadAll] reads the reader to its end: everything read before the
    end, the error, and the reader as the read leaves it. *)
Definition ReadAll (r : Reader) : bytes * option string * Reader :=
  (unread r, failure r, drained r).

(** ** [net/textproto] and [http.Header] *)

(** [validHeaderFieldByte]: the bytes an HTTP token is made of. *)
Definition is_lower (c : ascii) : bool := (0x61 <=? code c) && (code c <=? 0x7a).
Definition is_upper (c : ascii) : bool := (0x41 <=? code c) && (code c <=? 0x5a).
Definition is_digit (c : ascii) : bool := (0x30 <=? code c) && (code c <=? 0x39).

Definition validHeaderFieldByte (c : ascii) : bool :=
  is_lower c || is_upper c || is_digit c
  || existsb (Ascii.eqb c) (list_ascii_of_string "!#$%&'*+-.^_`|~").

(** ['a' - 'A'] *)
Definition toLower : Z := 0x20.

Definition ascii_of_code (x : Z) : ascii := ascii_of_N (Z.to_N x).

(** One step of the loop of [canonicalMIMEHeaderKey]: a letter that is to
    be in upper case and is not is moved there, and the other way round. *)
Definition canonical_byte (upper : bool) (c : ascii) : ascii :=
  if upper && is_lower c then ascii_of_code (code c - toLower)
  else if negb upper && is_upper c then ascii_of_code (code c + toLower)
  else c.

(** The loop of [canonicalMIMEHeaderKey]: the first letter and every letter
    after a dash in upper case, the other letters in lower case. *)
Fixpoint canonical (upper : bool) (a : list ascii) : list ascii :=
  match a with
  | [] => []
  | c :: a' =>
      let c := canonical_byte upper c in
      c :: canonical (Ascii.eqb c "-") a'
  end.

(** [textproto.CanonicalMIMEHeaderKey]: a key with a byte that is not of a
    token, a space among them, is returned as it is. *)
Definition CanonicalMIMEHeaderKey (s : string) : string :=
  let a := list_ascii_of_string s in
  if forallb validHeaderFieldByte a
  then string_of_list_ascii (canonical true a)
  else s.

(** [http.Header] is a map from a key to the values added under it. *)
Definition MIMEHeader : Type := list (string * list string).

(** [h[key]] *)
Fixpoint Values (key : string) (h : MIMEHeader) : list string :=
  match h with
  | [] => []
  | (k, vs) :: h' => if String.eqb k key then vs else Values key h'
  end.

(** [h[key] = append(h[key], value)] *)
Fixpoint append_value (key value : string) (h : MIMEHeader) : MIMEHeader :=
  match h with
  | [] => [(key, [value])]
  | (k, vs) :: h' =>
      if String.eqb k key then (k, vs ++ [value]) :: h'
      else (k, vs) :: append_value key value h'
  end.

(** [MIMEHeader.Add] *)
Definition MIMEHeader_Add (key value : string) (h : MIMEHeader) : MIMEHeader :=
  append_value (CanonicalMIMEHeaderKey key) value h.

(** [http.Request], with the fields the program touches. *)
Record Request : Type := {
  Method : string;
  URL : string;
  Header : MIMEHeader;
  Body : option Reader
}.

(** [req.Header.Add(k, v)] *)
Definition Header_Add (k v : string) (r : Request) : Request :=
  {| Method := Method r; URL := URL r;
     Header := MIMEHeader_Add k v (Header r); Body := Body r |}.

Definition set_Body (b : option Reader) (r : Request) : Request :=
  {| Method := Method r; URL := URL r; Header := Header r; Body := b |}.

Record Response : Type := { RespBody : Reader }.

(** [http.Transport], as the program configures it. *)
Record Transport : Type := {
  InsecureSkipVerify : bool;
  Proxy : option string
}.

(** [aws.Credentials] and a credentials provider, whose one method is
    [Retrieve]. *)
Record aws_Credentials : Type := {
  AccessKeyID : string;
  SecretAccessKey : string;
  SessionToken : string
}.

Record CredentialsProvider : Type := {
  Retrieve : string + aws_Credentials
}.

(** [credentials.NewStaticCredentialsProvider]: its [Retrieve] gives the
    value back, or an error when a key is empty. *)
Definition NewStaticCredentialsProvider (key secret session : string)
  : CredentialsProvider :=
  {| Retrieve :=
       if (String.eqb key "" || String.eqb secret "")%bool
       then inl "static credentials are empty"
       else inr {| AccessKeyID := key; SecretAccessKey := secret;
                   SessionToken := session |} |}.

(** The options handed to [config.LoadDefaultConfig]. *)
Inductive LoadOption : Type :=
| WithSharedConfigProfile (profile : string)
| WithCredentialsProvider (p : CredentialsProvider).

(** [aws.Config], with the two fields the program reads. *)
Record Config : Type := {
  Region : string;
  Credentials : CredentialsProvider
}.

Definition set_Region (r : string) (c : Config) : Config :=
  {| Region := r; Credentials := Credentials c |}.

(** ** The collaborators

    What the AWS SDK, the file system, [net/http] and the clock answer is
    not decided by the program; a [World] fixes these answers for one
    invocation.  A [string + A] is an error message or a value. *)
Record World : Type := {
  (** [config.LoadDefaultConfig]: environment, shared files, metadata. *)
  LoadDefaultConfig : list LoadOption -> string + Config;
  (** [os.Open] *)
  Open : string -> string + Reader;
  (** the error of [http.NewRequest] for a method and a URL, if any *)
  NewRequest_error : string -> string -> option string;
  (** [v4.Signer.SignHTTP]: the request as the signer leaves it *)
  SignHTTP : aws_Credentials -> Request -> string -> string -> string -> Z
             -> string + Request;
  (** [time.Now] *)
  Now : Z;
  (** [url.Parse] on the proxy *)
  Parse : string -> string + string;
  (** [http.Client.Do]: the network call to the target *)
  Do : Transport -> Request -> string + Response
}.

(** Every call to a collaborator and every write to a standard stream is an
    event; a call is recorded before its answer is looked at. *)
Inductive Event : Type :=
| CallLoadDefaultConfig (opts : list LoadOption)
| CallOpen (path : string)
| CallRetrieve
| CallSignHTTP (creds : aws_Credentials) (req : Request)
               (payloadHash service region : string) (now : Z)
| CallDo (tr : Transport) (req : Request)
| Stdout (b : bytes)
| Stderr (s : string)
| Usage.

(** ** A monad for the pipeline: a trace of events and an early return on
    the first error *)

Definition M (A : Type) : Type := list Event * result A.

Definition ret {A} (a : A) : M A := ([], Ok a).
Definition fail {A} (e : error) : M A := ([], Fail e).
Definition emit (ev : Event) : M unit := ([ev], Ok tt).

Definition bind {A B} (m : M A) (f : A -> M B) : M B :=
  match m with
  | (t, Ok a) => let (t', r) := f a in (t ++ t', r)
  | (t, Fail e) => (t, Fail e)
  end.

Notation "x <- m ;; k" := (bind m (fun x => k))
  (at level 61, m at next level, right associativity).
Notation "m ;;; k" := (bind m (fun _ => k))
  (at level 61, right associativity).

(** The answer of a collaborator; its error is returned as it is. *)
Definition answer {A} (r : string + A) : M A :=
  match r with
  | inl e => fail (External e)
  | inr a => ret a
  end.

Definition call {A} (ev : Event) (r : string + A) : M A :=
  emit ev ;;; answer r.

Definition trace {A} (m : M A) : list Event := fst m.
Definition outcome {A} (m : M A) : result A := snd m.

(** ** The program *)

Definition quote : string := String "034"%char EmptyString.
Definition newline : string := String "010"%char EmptyString.

(** [%d] *)
Definition Sprintf_d (n : nat) : string :=
  NilEmpty.string_of_uint (Nat.to_uint n).

(** [err.Error()]: the messages of the three [fmt.Errorf] calls, and the
    message of a collaborator's error. *)
Definition Error (e : error) : string :=
  match e with
  | OnlyOneURL n =>
      ("Error: Only one URL is expected, " ++ Sprintf_d n ++ " given")%string
  | UnableToLoadConfig cause =>
      ("Unable to load AWS config: " ++ cause)%string
  | InvalidHeader h =>
      ("Error: Invalid header: " ++ h ++ ". It should be in the format "
         ++ quote ++ "Name: Value" ++ quote)%string
  | External msg => msg
  end.

Definition nonempty (s : string) : bool := negb (String.eqb s "").

(** The config sources [getAWSConfig] collects: the profile when one is
    named, static credentials when both keys are given. *)
Definition cfgSources (f : awsCURLFlags) : list LoadOption :=
  let cfgSources := [] in
  let cfgSources :=
    if nonempty (awsProfile f)
    then cfgSources ++ [WithSharedConfigProfile (awsProfile f)]
    else cfgSources in
  if (nonempty (awsAccessKey f) && nonempty (awsSecretKey f))%bool
  then cfgSources ++
       [WithCredentialsProvider
          (NewStaticCredentialsProvider
             (awsAccessKey f) (awsSecretKey f) (awsSessionToken f))]
  else cfgSources.

(** [getAWSConfig] builds the AWS config from the AWS-related flags. *)
Definition getAWSConfig (w : World) (f : awsCURLFlags) : M Config :=
  emit (CallLoadDefaultConfig (cfgSources f)) ;;;
  match LoadDefaultConfig w (cfgSources f) with
  | inl err => fail (UnableToLoadConfig err)
  | inr cfg =>
      ret (if nonempty (awsRegion f) then set_Region (awsRegion f) cfg else cfg)
  end.

(** [readAndReplaceBody] reads the body to its end, dropping the error of
    the read.  The reader that was read is the one the request holds, so the
    request is left with a reader at its end, until the function puts a fresh
    reader over the bytes read in its place. *)
Definition readAndReplaceBody (request : Request) : bytes * Request :=
  match Body request with
  | None => ([], request)
  | Some body =>
      let '(payload, _, body) := ReadAll body in
      let request := set_Body (Some body) request in
      (payload, set_Body (Some (bytes_NewReader payload)) request)
  end.

(** [http.NewRequest]: an empty method means [GET]; the body is the reader
    given.  Whether the method and the URL are accepted is the library's. *)
Definition http_NewRequest (w : World) (method url : string) (body : Reader)
  : M Request :=
  match NewRequest_error w method url with
  | Some err => fail (External err)
  | None =>
      ret {| Method := if String.eqb method "" then "GET" else method;
             URL := url; Header := []; Body := Some body |}
  end.

(** The loop over [flags.headers]. *)
Fixpoint add_headers (hs : list string) (req : Request) : M Request :=
  match hs with
  | [] => ret req
  | h :: hs' =>
      let hParts := Split h ":" in
      if negb (List.length hParts =? 2)%nat then fail (InvalidHeader h)
      else
        let hKey := TrimSpace (nth 0 hParts "") in
        let hVal := TrimSpace (nth 1 hParts "") in
        add_headers hs' (Header_Add hKey hVal req)
  end.

(** [fmt.Println(string(content))] *)
Definition Println (content : bytes) : M unit :=
  emit (Stdout (content ++ list_byte_of_string newline)).

Definition runCurl (w : World) (flags : awsCURLFlags) (args : list string)
  : M unit :=
  if negb (List.length args =? 1)%nat
  then fail (OnlyOneURL (List.length args))
  else
    cfg <- getAWSConfig w flags ;;
    body <- (if HasPrefix (data flags) "@"
             then
               let fPath := from1 (data flags) in
               call (CallOpen fPath) (Open w fPath)
             else ret (strings_NewReader (data flags))) ;;
    let url := nth 0 args "" in
    req <- http_NewRequest w (method flags) url body ;;
    req <- add_headers (headers flags) req ;;
    let (reqBody, req) := readAndReplaceBody req in
    let reqBodySHA256 := hashSHA256 reqBody in
    creds <- call CallRetrieve (Retrieve (Credentials cfg)) ;;
    req <- call (CallSignHTTP creds req reqBodySHA256 (awsService flags)
                   (Region cfg) (Now w))
                (SignHTTP w creds req reqBodySHA256 (awsService flags)
                   (Region cfg) (Now w)) ;;
    let tr := {| InsecureSkipVerify := insecure flags; Proxy := None |} in
    tr <- (if nonempty (proxy flags)
           then
             proxyURL <- answer (Parse w (proxy flags)) ;;
             ret {| InsecureSkipVerify := InsecureSkipVerify tr;
                    Proxy := Some proxyURL |}
           else ret tr) ;;
    response <- call (CallDo tr req) (Do w tr req) ;;
    match ReadAll (RespBody response) with
    | (_, Some err, _) => fail (External err)
    | (content, None, _) => Println content
    end.

(** [rootCmd.Execute]: cobra checks [ExactArgs(1)], runs [RunE], and prints
    the error it gets, with the usage unless [runCurl] has silenced it. *)
Definition Execute (w : World) (flags : awsCURLFlags) (args : list string)
  : M unit :=
  let report (e : error) : list Event :=
    [Stderr ("Error: " ++ Error e ++ newline)%string] in
  if (List.length args =? 1)%nat
  then
    match runCurl w flags args with
    | (t, Ok u) => (t, Ok u)
    | (t, Fail e) => (t ++ report e, Fail e)
    end
  else
    let e := External ("accepts 1 arg(s), received "
                         ++ Sprintf_d (List.length args))%string in
    (report e ++ [Usage], Fail e).

(** [main]: the events of the invocation and the exit code of the process. *)
Definition main (w : World) (flags : awsCURLFlags) (args : list string)
  : list Event * Z :=
  match Execute w flags args with
  | (t, Ok _) => (t, 0)
  | (t, Fail _) => (t, 1)
  end.

(** ** What an invocation shows to the outside *)

Fixpoint stdout (t : list Event) : bytes :=
  match t with
  | [] => []
  | Stdout b :: t' => b ++ stdout t'
  | _ :: t' => stdout t'
  end.

Fixpoint stderr (t : list Event) : string :=
  match t with
  | [] => EmptyString
  | Stderr s :: t' => (s ++ stderr t')%string
  | _ :: t' => stderr t'
  end.

(** The network call to the target, and the call to the signer. *)
Definition is_CallDo (ev : Event) : bool :=
  match ev with CallDo _ _ => true | _ => false end.
Definition is_CallSignHTTP (ev : Event) : bool :=
  match ev with CallSignHTTP _ _ _ _ _ _ => true | _ => false end.

Definition no_network_call (t : list Event) : Prop :=
  forallb (fun ev => negb (is_CallDo ev)) t = true.
Definition not_signed (t : list Event) : Prop :=
  forallb (fun ev => negb (is_CallSignHTTP ev)) t = true.

(** The bytes a request sends as its body: what its reader delivers. *)
Definition transmitted (req : Request) : bytes :=
  match Body req with
  | None => []
  | Some r => unread r
  end.

(** ** A sample world

    The environment holds the credentials of the AWS documentation and a
    region; a provider given as a source takes precedence over them, as
    in the SDK.  The signer adds a date and an authorization header; the
    target answers with a fixed body. *)
Module Sample.

Definition env_credentials : aws_Credentials :=
  {| AccessKeyID := "AKIDEXAMPLE"; SecretAccessKey := "secret";
     SessionToken := "" |}.

Fixpoint given_provider (opts : list LoadOption) : option CredentialsProvider :=
  match opts with
  | [] => None
  | WithCredentialsProvider p :: _ => Some p
  | _ :: opts' => given_provider opts'
  end.

Definition load (region : string) (env : string + aws_Credentials)
    (opts : list LoadOption) : string + Config :=
  inr {| Region := region;
         Credentials := match given_provider opts with
                        | Some p => p
                        | None => {| Retrieve := env |}
                        end |}.

Definition signed (creds : aws_Credentials) (req : Request)
    (service region : string) : Request :=
  Header_Add "Authorization"
    ("AWS4-HMAC-SHA256 Credential=" ++ AccessKeyID creds ++ "/"
       ++ region ++ "/" ++ service ++ "/aws4_request")%string
    (Header_Add "X-Amz-Date" "20150830T123600Z" req).

Definition sign (creds : aws_Credentials) (req : Request)
    (payloadHash service region : string) (now : Z) : string + Request :=
  inr (signed creds req service region).

Definition files (path : string) : string + Reader :=
  if String.eqb path "payload.json"
  then inr (strings_NewReader "{}")
  else if String.eqb path "/etc"
  then inr {| unread := []; failure := Some "read /etc: is a directory" |}
  else inl ("open " ++ path ++ ": no such file or directory")%string.

Definition world (region : string) (env : string + aws_Credentials) : World :=
  {| LoadDefaultConfig := load region env;
     Open := files;
     NewRequest_error := fun _ _ => None;
     SignHTTP := sign;
     Now := 1440938160;
     Parse := fun p => inr p;
     Do := fun _ _ => inr {| RespBody := strings_NewReader "ok" |} |}.

Definition flags : awsCURLFlags :=
  {| headers := []; method := "GET"; data := "";
     awsAccessKey := ""; awsSecretKey := ""; awsSessionToken := "";
     awsProfile := ""; awsService := "execute-api"; awsRegion := "";
     insecure := false; proxy := "" |}.

Definition url : string :=
  "https://example.execute-api.us-east-1.amazonaws.com/resource".

End Sample.

(** ** How a run reaches the signer and the network *)

(** Where the body comes from: the file named after [@], or the string. *)
Definition body_source (w : World) (f : awsCURLFlags) : string + Reader :=
  if HasPrefix (data f) "@" then Open w (from1 (data f))
  else inr (strings_NewReader (data f)).

(** The region of the config [getAWSConfig] returns. *)
Definition resolved_region (f : awsCURLFlags) (cfg : Config) : string :=
  if nonempty (awsRegion f) then awsRegion f else Region cfg.

(** The header a well-formed flag value stands for. *)
Definition parsed_header (h : string) : string * string :=
  (TrimSpace (nth 0 (Split h ":") ""), TrimSpace (nth 1 (Split h ":") "")).

Definition one_colon (h : string) : bool :=
  (List.length (Split h ":") =? 2)%nat.

(** The header map after the loop has added the parsed flag values to it,
    one after the other. *)
Definition add_all (kvs : list (string * string)) (h : MIMEHeader)
  : MIMEHeader :=
  fold_left (fun h kv => MIMEHeader_Add (fst kv) (snd kv) h) kvs h.

(** The values among [kvs] whose name is, in canonical form, [key]. *)
Definition values_for (key : string) (kvs : list (string * string))
  : list string :=
  map snd
    (filter (fun kv => String.eqb (CanonicalMIMEHeaderKey (fst kv)) key) kvs).

(** The number of colons in a string. *)
Fixpoint colons (s : string) : nat :=
  match s with
  | EmptyString => 0%nat
  | String c s' => ((if Ascii.eqb c ":" then 1 else 0) + colons s')%nat
  end.

(** The request before the headers are added. *)
Definition fresh_request (f : awsCURLFlags) (args : list string)
    (body : Reader) : Request :=
  {| Method := if String.eqb (method f) "" then "GET" else method f;
     URL := nth 0 args ""; Header := []; Body := Some body |}.

(** The request after [readAndReplaceBody], for a body that was [body]. *)
Definition replaced (body : Reader) (req0 : Request) : Request :=
  set_Body (Some (bytes_NewReader (unread body))) req0.

Section Runs.

Variable w : World.
Variable f : awsCURLFlags.
Variable args : list string.

Definition loaded : list Event := [CallLoadDefaultConfig (cfgSources f)].

Definition opened : list Event :=
  if HasPrefix (data f) "@" then [CallOpen (from1 (data f))] else [].

(** Everything that has to go well before the credentials are asked for. *)
Definition prepared (cfg : Config) (body : Reader) (req0 : Request) : Prop :=
  List.length args = 1%nat /\
  LoadDefaultConfig w (cfgSources f) = inr cfg /\
  body_source w f = inr body /\
  NewRequest_error w (method f) (nth 0 args "") = None /\
  outcome (add_headers (headers f) (fresh_request f args body)) = Ok req0.

Definition sign_event (cfg : Config) (body : Reader) (req0 : Request)
    (creds : aws_Credentials) : Event :=
  CallSignHTTP creds (replaced body req0) (hashSHA256 (unread body))
    (awsService f) (resolved_region f cfg) (Now w).

Definition sign_answer (cfg : Config) (body : Reader) (req0 : Request)
    (creds : aws_Credentials) : string + Request :=
  SignHTTP w creds (replaced body req0) (hashSHA256 (unread body))
    (awsService f) (resolved_region f cfg) (Now w).

Definition until_signer (cfg : Config) (body : Reader) (req0 : Request)
    (creds : aws_Credentials) : list Event :=
  loaded ++ opened ++ [CallRetrieve; sign_event cfg body req0 creds].

(** The proxy of the transport, when [--proxy] is given and parses. *)
Definition proxy_source : string + option string :=
  if nonempty (proxy f)
  then match Parse w (proxy f) with
       | inl e => inl e
       | inr u => inr (Some u)
       end
  else inr None.

Definition transport (p : option string) : Transport :=
  {| InsecureSkipVerify := insecure f; Proxy := p |}.

(** The ways a run of [runCurl] can go: one rule for each [return] of the
    function, with the events recorded up to that point. *)
Inductive Run : list Event -> result unit -> Prop :=
| run_args :
    List.length args <> 1%nat ->
    Run [] (Fail (OnlyOneURL (List.length args)))
| run_config e :
    List.length args = 1%nat ->
    LoadDefaultConfig w (cfgSources f) = inl e ->
    Run loaded (Fail (UnableToLoadConfig e))
| run_open cfg e :
    List.length args = 1%nat ->
    LoadDefaultConfig w (cfgSources f) = inr cfg ->
    body_source w f = inl e ->
    Run (loaded ++ opened) (Fail (External e))
| run_request cfg body e :
    List.length args = 1%nat ->
    LoadDefaultConfig w (cfgSources f) = inr cfg ->
    body_source w f = inr body ->
    NewRequest_error w (method f) (nth 0 args "") = Some e ->
    Run (loaded ++ opened) (Fail (External e))
| run_header cfg body e :
    List.length args = 1%nat ->
    LoadDefaultConfig w (cfgSources f) = inr cfg ->
    body_source w f = inr body ->
    NewRequest_error w (method f) (nth 0 args "") = None ->
    outcome (add_headers (headers f) (fresh_request f args body)) = Fail e ->
    Run (loaded ++ opened) (Fail e)
| run_retrieve cfg body req0 e :
    prepared cfg body req0 ->
    Retrieve (Credentials cfg) = inl e ->
    Run (loaded ++ opened ++ [CallRetrieve]) (Fail (External e))
| run_sign cfg body req0 creds e :
    prepared cfg body req0 ->
    Retrieve (Credentials cfg) = inr creds ->
    sign_answer cfg body req0 creds = inl e ->
    Run (until_signer cfg body req0 creds) (Fail (External e))
| run_proxy cfg body req0 creds req e :
    prepared cfg body req0 ->
    Retrieve (Credentials cfg) = inr creds ->
    sign_answer cfg body req0 creds = inr req ->
    proxy_source = inl e ->
    Run (until_signer cfg body req0 creds) (Fail (External e))
| run_do cfg body req0 creds req p e :
    prepared cfg body req0 ->
    Retrieve (Credentials cfg) = inr creds ->
    sign_answer cfg body req0 creds = inr req ->
    proxy_source = inr p ->
    Do w (transport p) req = inl e ->
    Run (until_signer cfg body req0 creds ++ [CallDo (transport p) req])
        (Fail (External e))
| run_read cfg body req0 creds req p response e :
    prepared cfg body req0 ->
    Retrieve (Credentials cfg) = inr creds ->
    sign_answer cfg body req0 creds = inr req ->
    proxy_source = inr p ->
    Do w (transport p) req = inr response ->
    failure (RespBody response) = Some e ->
    Run (until_signer cfg body req0 creds ++ [CallDo (transport p) req])
        (Fail (External e))
| run_print cfg body req0 creds req p response :
    prepared cfg body req0 ->
    Retrieve (Credentials cfg) = inr creds ->
    sign_answer cfg body req0 creds = inr req ->
    proxy_source = inr p ->
    Do w (transport p) req = inr response ->
    failure (RespBody response) = None ->
    Run (until_signer cfg body req0 creds
           ++ [CallDo (transport p) req;
               Stdout (unread (RespBody response)
                         ++ list_byte_of_string newline)])
        (Ok tt).

End Runs.

(** ** From [runCurl] to the process *)

Definition report (e : error) : list Event :=
  [Stderr ("Error: " ++ Error e ++ newline)%string].

(** ** Flags that differ in one group of options *)

Definition with_keys (key secret session : string) (f : awsCURLFlags)
  : awsCURLFlags :=
  {| headers := headers f; method := method f; data := data f;
     awsAccessKey := key; awsSecretKey := secret; awsSessionToken := session;
     awsProfile := awsProfile f; awsService := awsService f;
     awsRegion := awsRegion f; insecure := insecure f; proxy := proxy f |}.

Definition with_headers (hs : list string) (f : awsCURLFlags) : awsCURLFlags :=
  {| headers := hs; method := method f; data := data f;
     awsAccessKey := awsAccessKey f; awsSecretKey := awsSecretKey f;
     awsSessionToken := awsSessionToken f;
     awsProfile := awsProfile f; awsService := awsService f;
     awsRegion := awsRegion f; insecure := insecure f; proxy := proxy f |}.

Definition with_data (d : string) (f : awsCURLFlags) : awsCURLFlags :=
  {| headers := headers f; method := method f; data := d;
     awsAccessKey := awsAccessKey f; awsSecretKey := awsSecretKey f;
     awsSessionToken := awsSessionToken f;
     awsProfile := awsProfile f; awsService := awsService f;
     awsRegion := awsRegion f; insecure := insecure f; proxy := proxy f |}.

(** ** Partial explicit credentials *)

(** Exactly one of [--access-key] and [--secret-key] is given. *)
Definition partial_credentials (f : awsCURLFlags) : Prop :=
  xorb (nonempty (awsAccessKey f)) (nonempty (awsSecretKey f)) = true.

(** The invocation fails, and neither the signer nor the network is
    reached. *)
Definition fails_before_signing (w : World) (f : awsCURLFlags)
    (args : list string) : Prop :=
  snd (main w f args) = 1 /\
  not_signed (fst (main w f args)) /\
  no_network_call (fst (main w f args)).

(** ** What the signer is given *)

(** Hash, service and region of every call to the signer, in order. *)
Fixpoint signatures (t : list Event) : list (string * string * string) :=
  match t with
  | [] => []
  | CallSignHTTP _ _ h s r _ :: t' => (h, s, r) :: signatures t'
  | _ :: t' => signatures t'
  end.

Definition empty_digest : string :=
  "e3b0c44298fc1c149afbf4c8996fb92427ae41e4649b934ca495991b7852b855".

(** ** Credentials *)

(** No source yields credentials: whatever config the SDK loads, its
    provider fails to retrieve any. *)
Definition credentials_unavailable (w : World) (f : awsCURLFlags) : Prop :=
  forall cfg,
    LoadDefaultConfig w (cfgSources f) = inr cfg ->
    exists e, Retrieve (Credentials cfg) = inl e.

(** ** The signer of the specification

    The signer the program calls is the SDK's [v4.Signer]; its code is not
    among the sources.  The specification describes a signer of its own
    (3, SignedRequest, and 4.3, Signer), and this is that description. *)
Module Signer.

(** Modelled from the spec: what the specification leaves to the signing
    scheme it calls equivalent to Signature Version 4, and does not fix
    itself: the algorithm identifier, how the secret key seeds the key
    derivation, how a date, a timestamp and a scope are written, the
    canonical request of a request and its body hash (the builder of 4.2),
    how the authorization header carries the signature, and the names of
    the three headers. *)
Record Scheme : Type := {
  algorithm : string;
  seed : string -> string;
  date : Z -> string;
  timestamp : Z -> string;
  scope : string -> string -> string -> string;
  canonical_request : Request -> string -> string;
  authorization : aws_Credentials -> string -> string -> string;
  authorization_header : string;
  timestamp_header : string;
  token_header : string
}.

Definition octets (s : string) : list Z :=
  map Z_of_byte (list_byte_of_string s).

(** Modelled from the spec: the keyed hashing of 4.3, "HMAC-style", absent
    from the sources; HMAC over the 256-bit digest of the program, with
    its block of 64 bytes. *)
Definition keyed_hash (key msg : list Z) : list Z :=
  let key := if (64 <? List.length key)%nat then SHA256.sum key else key in
  let key := key ++ repeat 0 (64 - List.length key) in
  SHA256.sum (map (Z.lxor 0x5c) key
              ++ SHA256.sum (map (Z.lxor 0x36) key ++ msg)).

Section Signing.

Variable sch : Scheme.

(** Modelled from the spec: the scoped signing key of 4.3, absent from the
    sources, derived by repeated keyed hashing over date, region and
    service name, seeded from the secret key. *)
Definition signing_key (secret : string) (now : Z) (region service : string)
  : list Z :=
  keyed_hash
    (keyed_hash
       (keyed_hash (octets (seed sch secret)) (octets (date sch now)))
       (octets region))
    (octets service).

(** Modelled from the spec: the string to sign of 4.3, absent from the
    sources, which combines the algorithm identifier, the timestamp, the
    scope and the hash of the canonical request, here one on a line. *)
Definition string_to_sign (req : Request)
    (payloadHash service region : string) (now : Z) : string :=
  (algorithm sch ++ newline ++ timestamp sch now ++ newline
   ++ scope sch (date sch now) region service ++ newline
   ++ Sprintf_x (SHA256.sum (octets (canonical_request sch req payloadHash))))
  %string.

(** Modelled from the spec: the signature of 4.3, absent from the sources:
    the keyed hash of the string to sign under the derived signing key, in
    hexadecimal. *)
Definition signature (creds : aws_Credentials) (req : Request)
    (payloadHash service region : string) (now : Z) : string :=
  Sprintf_x
    (keyed_hash (signing_key (SecretAccessKey creds) now region service)
       (octets (string_to_sign req payloadHash service region now))).

(** Modelled from the spec: the header set to attach (3 and 4.3), absent
    from the sources: a timestamp header, a session-token header when the
    credentials carry a token, and an authorization header. *)
Definition header_set (creds : aws_Credentials) (req : Request)
    (payloadHash service region : string) (now : Z)
  : list (string * string) :=
  (timestamp_header sch, timestamp sch now)
  :: (if nonempty (SessionToken creds)
      then [(token_header sch, SessionToken creds)] else [])
  ++ [(authorization_header sch,
       authorization sch creds (scope sch (date sch now) region service)
         (signature creds req payloadHash service region now))].

(** Modelled from the spec: the signer of 4.3, absent from the sources
    (the program calls the SDK's).  It fails with [SigningFailed] on empty
    credentials; otherwise the signed request is the original request plus
    the injected headers, and nothing else of the request is touched. *)
Definition SignHTTP (creds : aws_Credentials) (req : Request)
    (payloadHash service region : string) (now : Z) : string + Request :=
  if (String.eqb (AccessKeyID creds) ""
      || String.eqb (SecretAccessKey creds) "")%bool
  then inl "SigningFailed"
  else inr {| Method := Method req; URL := URL req;
              Header := add_all
                          (header_set creds req payloadHash service region now)
                          (Header req);
              Body := Body req |}.

End Signing.

End Signer.

(** A world whose signer is the signer of the specification. *)
Definition with_signer (sch : Signer.Scheme) (w : World) : World :=
  {| LoadDefaultConfig := LoadDefaultConfig w;
     Open := Open w;
     NewRequest_error := NewRequest_error w;
     SignHTTP := Signer.SignHTTP sch;
     Now := Now w;
     Parse := Parse w;
     Do := Do w |}.

(** *** A scheme to run the signer with

    The identifiers and the formats are those of Signature Version 4; the
    canonical request is cut down to the method, the URL and the body
    hash. *)

(** [n] decimal digits of [x], the most significant first. *)
Fixpoint digits (n : nat) (x : Z) : string :=
  match n with
  | O => EmptyString
  | S n' => (digits n' (x / 10)
             ++ String (ascii_of_N (Z.to_N (48 + x mod 10))) EmptyString)%string
  end.

(** Year, month and day of a number of days since 1 January 1970. *)
Definition civil (days : Z) : Z * Z * Z :=
  let z := days + 719468 in
  let era := z / 146097 in
  let doe := z - era * 146097 in
  let yoe := (doe - doe / 1460 + doe / 36524 - doe / 146096) / 365 in
  let doy := doe - (365 * yoe + yoe / 4 - yoe / 100) in
  let mp := (5 * doy + 2) / 153 in
  let d := doy - (153 * mp + 2) / 5 + 1 in
  let m := if mp <? 10 then mp + 3 else mp - 9 in
  let y := yoe + era * 400 + (if m <=? 2 then 1 else 0) in
  (y, m, d).

Definition yyyymmdd (now : Z) : string :=
  let '(y, m, d) := civil (now / 86400) in
  (digits 4 y ++ digits 2 m ++ digits 2 d)%string.

Definition sample_scheme : Signer.Scheme :=
  {| Signer.algorithm := "AWS4-HMAC-SHA256";
     Signer.seed := fun secret => ("AWS4" ++ secret)%string;
     Signer.date := yyyymmdd;
     Signer.timestamp := fun now =>
       (yyyymmdd now ++ "T" ++ digits 2 (now mod 86400 / 3600)
        ++ digits 2 (now mod 3600 / 60) ++ digits 2 (now mod 60) ++ "Z")%string;
     Signer.scope := fun date region service =>
       (date ++ "/" ++ region ++ "/" ++ service ++ "/aws4_request")%string;
     Signer.canonical_request := fun req payloadHash =>
       (Method req ++ newline ++ URL req ++ newline ++ payloadHash)%string;
     Signer.authorization := fun creds scope signature =>
       ("AWS4-HMAC-SHA256 Credential=" ++ AccessKeyID creds ++ "/" ++ scope
        ++ ", Signature=" ++ signature)%string;
     Signer.authorization_header := "Authorization";
     Signer.timestamp_header := "X-Amz-Date";
     Signer.token_header := "X-Amz-Security-Token" |}.

(** The authorization header of this scheme for the credentials of the
    sample world, a [GET] of the sample URL with the body [{}], the service
    [execute-api], the region [us-east-1] and the time of the sample
    world. *)
Definition sample_authorization : string :=
  ("AWS4-HMAC-SHA256 "
   ++ "Credential=AKIDEXAMPLE/20150830/us-east-1/execute-api/aws4_request, "
   ++ "Signature="
   ++ "f1b01a876c1afb18a0f1686ce1f2d4f23fd7469b1fabea4f549806699fdd4d86")
  %string.

(** ** Further notions for the properties of the pipeline *)

(** A lower-case hexadecimal digit, as [%x] prints them. *)
Definition is_hex_digit (c : ascii) : bool :=
  let n := code c in
  ((48 <=? n) && (n <=? 57) || (97 <=? n) && (n <=? 102))%bool.

Definition lower_hex (s : string) : bool :=
  forallb is_hex_digit (list_ascii_of_string s).

(** A string without a colon that [TrimSpace] leaves as it is. *)
Definition clean (s : string) : Prop :=
  colons s = 0%nat /\ TrimSpace s = s.

(** The first byte of an encoding is not a byte of a token. *)
Definition starts_outside_tokens (p : list Z) : bool :=
  match p with
  | [] => false
  | x :: _ => negb (validHeaderFieldByte (ascii_of_code x))
  end.

(** The values [init] registers as the defaults of the flags. *)
Definition default_flags : awsCURLFlags :=
  {| headers := []; method := "GET"; data := "";
     awsAccessKey := ""; awsSecretKey := ""; awsSessionToken := "";
     awsProfile := ""; awsService := "execute-api"; awsRegion := "";
     insecure := false; proxy := "" |}.

Definition is_CallLoadDefaultConfig (ev : Event) : bool :=
  match ev with CallLoadDefaultConfig _ => true | _ => false end.
Definition is_CallOpen (ev : Event) : bool :=
  match ev with CallOpen _ => true | _ => false end.
Definition is_CallRetrieve (ev : Event) : bool :=
  match ev with CallRetrieve => true | _ => false end.

(** How many events of a kind a trace holds. *)
Definition count (p : Event -> bool) (t : list Event) : nat :=
  List.length (filter p t).

(** Worlds that differ from a given one in the answer of one
    collaborator. *)
Definition failing_config (e : string) (w : World) : World :=
  {| LoadDefaultConfig := fun _ => inl e;
     Open := Open w;
     NewRequest_error := NewRequest_error w;
     SignHTTP := SignHTTP w;
     Now := Now w;
     Parse := Parse w;
     Do := Do w |}.

Definition failing_parse (e : string) (w : World) : World :=
  {| LoadDefaultConfig := LoadDefaultConfig w;
     Open := Open w;
     NewRequest_error := NewRequest_error w;
     SignHTTP := SignHTTP w;
     Now := Now w;
     Parse := fun _ => inl e;
     Do := Do w |}.

Definition answering (response : Response) (w : World) : World :=
  {| LoadDefaultConfig := LoadDefaultConfig w;
     Open := Open w;
     NewRequest_error := NewRequest_error w;
     SignHTTP := SignHTTP w;
     Now := Now w;
     Parse := Parse w;
     Do := fun _ _ => inr response |}.

Definition with_proxy (p : string) (f : awsCURLFlags) : awsCURLFlags :=
  {| headers := headers f; method := method f; data := data f;
     awsAccessKey := awsAccessKey f; awsSecretKey := awsSecretKey f;
     awsSessionToken := awsSessionToken f;
     awsProfile := awsProfile f; awsService := awsService f;
     awsRegion := awsRegion f; insecure := insecure f; proxy := p |}.

(** The SDK takes the credentials provider it is given as a source for the
    provider of the config it loads. *)
Definition given_provider_is_used (w : World) (opts : list LoadOption) : Prop :=
  forall cfg p,
    LoadDefaultConfig w opts = inr cfg ->
    In (WithCredentialsProvider p) opts ->
    Credentials cfg = p.

Definition refusing_request (e : string) (w : World) : World :=
  {| LoadDefaultConfig := LoadDefaultConfig w;
     Open := Open w;
     NewRequest_error := fun _ _ => Some e;
     SignHTTP := SignHTTP w;
     Now := Now w;
     Parse := Parse w;
     Do := Do w |}.

(** * Properties of the program *)

Example SHA256_constants :
  List.length SHA256.primes = 64%nat /\
  nth 0 SHA256.K 0 = 0x428a2f98 /\ nth 63 SHA256.K 0 = 0xc67178f2 /\
  nth 0 SHA256.init 0 = 0x6a09e667 /\ nth 7 SHA256.init 0 = 0x5be0cd19.
Proof. repeat split; reflexivity. Qed.

Example hashSHA256_abc :
  hashSHA256 (list_byte_of_string "abc")
  = "ba7816bf8f01cfea414140de5dae2223b00361a396177a9cb410ff61f20015ad".
Proof. vm_compute. reflexivity. Qed.

Example hashSHA256_two_blocks :
  hashSHA256 (list_byte_of_string
    "abcdbcdecdefdefgefghfghighijhijkijkljklmklmnlmnomnopnopq")
  = "248d6a61d20638b8e5c026930c3e6039a33ce45964ff2167f6ecedd419db06c1".
Proof. vm_compute. reflexivity. Qed.

Example Split_no_colon : Split "BadHeader" ":" = ["BadHeader"].
Proof. reflexivity. Qed.

Example Split_one_colon : Split "Accept: text/plain" ":" = ["Accept"; " text/plain"].
Proof. reflexivity. Qed.

Example Split_two_colons : Split "a:b:c" ":" = ["a"; "b"; "c"].
Proof. reflexivity. Qed.

Example Split_empty : Split "" ":" = [""].
Proof. reflexivity. Qed.

Example TrimSpace_both : TrimSpace "  text/plain  " = "text/plain".
Proof. reflexivity. Qed.

Example TrimSpace_inner : TrimSpace " a b " = "a b".
Proof. reflexivity. Qed.

Example TrimSpace_tab_newline :
  TrimSpace (String "009" (String "010" ("a" ++ String "013" (String "012" ""))))
  = "a".
Proof. reflexivity. Qed.

(** U+00A0 before and U+3000 after, in UTF-8. *)
Example TrimSpace_unicode :
  TrimSpace (String "194" (String "160"
               ("a" ++ String "227" (String "128" (String "128" "")))))
  = "a".
Proof. reflexivity. Qed.

(** A lone byte [0xa0] is not the encoding of a space. *)
Example TrimSpace_lone_byte :
  TrimSpace (String "160" "a") = String "160" "a".
Proof. reflexivity. Qed.

(** [strings.Split] gives one more part than there are separators, so the
    header test of [runCurl] passes for exactly one colon. *)
Lemma Split_length (s : string) :
  List.length (Split s ":") = S (colons s).
Proof.
  induction s as [|c s IH]; simpl; [reflexivity|].
  destruct (Ascii.eqb c ":"); simpl.
  - rewrite IH. reflexivity.
  - destruct (Split s ":") as [|p ps]; simpl in *; [discriminate IH|exact IH].
Qed.

Lemma one_colon_iff (h : string) :
  one_colon h = true <-> colons h = 1%nat.
Proof.
  unfold one_colon. rewrite Split_length, Nat.eqb_eq. lia.
Qed.

(** The fuel of [trim_left] is enough: what it returns starts with no
    space, as long as no encoding is empty. *)
Lemma strip_length (p : list Z) (s s' : list ascii) :
  strip p s = Some s' -> List.length s = (List.length p + List.length s')%nat.
Proof.
  revert s; induction p as [|x p IH]; intros s H; simpl in *.
  - injection H as ->. reflexivity.
  - destruct s as [|c s]; [discriminate H|].
    destruct (code c =? x); [|discriminate H].
    simpl. rewrite (IH _ H). reflexivity.
Qed.

Lemma strip_first_shorter (ps : list (list Z)) (s s' : list ascii) :
  Forall (fun p => p <> []) ps ->
  strip_first ps s = Some s' ->
  (List.length s' < List.length s)%nat.
Proof.
  intro Hne. induction Hne as [|p ps Hp Hps IH]; simpl; [discriminate|].
  destruct (strip p s) as [s0|] eqn:Hs; intro H.
  - injection H as <-. apply strip_length in Hs.
    destruct p; [congruence|]. simpl in Hs. lia.
  - apply IH, H.
Qed.

Lemma trim_left_done (ps : list (list Z)) (fuel : nat) (s : list ascii) :
  Forall (fun p => p <> []) ps ->
  (List.length s <= fuel)%nat ->
  strip_first ps (trim_left ps fuel s) = None.
Proof.
  intro Hne. revert s; induction fuel as [|fuel IH]; intros s Hlen; simpl.
  - destruct s; [|simpl in Hlen; lia].
    destruct (strip_first ps []) as [s'|] eqn:H; [|reflexivity].
    apply (strip_first_shorter ps _ _ Hne) in H. simpl in H. lia.
  - destruct (strip_first ps s) as [s'|] eqn:H; [|exact H].
    apply IH. apply (strip_first_shorter ps _ _ Hne) in H. lia.
Qed.

Lemma space_encodings_nonempty :
  Forall (fun p : list Z => p <> []) space_encodings.
Proof. repeat constructor; discriminate. Qed.

Lemma TrimLeftSpace_done (s : list ascii) :
  strip_first space_encodings (TrimLeftSpace s) = None.
Proof.
  apply trim_left_done; [apply space_encodings_nonempty | apply Nat.le_refl].
Qed.

(** What [readAndReplaceBody] gives for a request with a body. *)
Lemma readAndReplaceBody_Some (request : Request) (body : Reader) :
  Body request = Some body ->
  readAndReplaceBody request = (unread body, replaced body request).
Proof. intro H. unfold readAndReplaceBody. rewrite H. reflexivity. Qed.

Lemma add_headers_silent (hs : list string) (req : Request) :
  trace (add_headers hs req) = [].
Proof.
  revert req; induction hs as [|h hs IH]; intro req; simpl.
  - reflexivity.
  - destruct (List.length (Split h ":") =? 2)%nat; simpl; auto.
Qed.

Lemma add_headers_ok (hs : list string) (req req' : Request) :
  outcome (add_headers hs req) = Ok req' ->
  forallb one_colon hs = true /\
  Method req' = Method req /\ URL req' = URL req /\ Body req' = Body req /\
  Header req' = add_all (map parsed_header hs) (Header req).
Proof.
  revert req; induction hs as [|h hs IH]; intros req H; simpl in *.
  - injection H as <-. auto.
  - unfold one_colon at 1.
    destruct (List.length (Split h ":") =? 2)%nat eqn:E; simpl in *.
    + apply IH in H. destruct H as (Hall & Hm & Hu & Hb & Hh).
      simpl in *. rewrite Hh. auto.
    + discriminate.
Qed.

Lemma add_headers_fail (hs : list string) (req : Request) (e : error) :
  outcome (add_headers hs req) = Fail e ->
  exists h, e = InvalidHeader h /\ In h hs /\ one_colon h = false.
Proof.
  revert req; induction hs as [|h hs IH]; intros req H; simpl in *.
  - discriminate.
  - destruct (List.length (Split h ":") =? 2)%nat eqn:E; simpl in *.
    + apply IH in H. destruct H as (h' & He & Hin & Hc). eauto.
    + injection H as <-. exists h. unfold one_colon. auto.
Qed.

Lemma add_headers_all (hs : list string) (req : Request) :
  forallb one_colon hs = true ->
  exists req', add_headers hs req = ([], Ok req').
Proof.
  revert req; induction hs as [|h hs IH]; intros req H; simpl in *.
  - eexists; reflexivity.
  - apply andb_true_iff in H. destruct H as [H1 H2].
    unfold one_colon in H1. rewrite H1. simpl. apply IH, H2.
Qed.

Lemma region_of_config (f : awsCURLFlags) (cfg : Config) :
  Region (if nonempty (awsRegion f) then set_Region (awsRegion f) cfg else cfg)
  = resolved_region f cfg.
Proof. unfold resolved_region. destruct (nonempty (awsRegion f)); reflexivity. Qed.

Lemma credentials_of_config (f : awsCURLFlags) (cfg : Config) :
  Credentials (if nonempty (awsRegion f) then set_Region (awsRegion f) cfg else cfg)
  = Credentials cfg.
Proof. destruct (nonempty (awsRegion f)); reflexivity. Qed.

(** A rule closes a branch once the events of the rule are written with
    what [opened] is in that branch. *)
Ltac by_rule rule Hop :=
  let H := fresh "HRun" in
  eassert (H : Run _ _ _ _ _) by (eapply rule; eauto);
  unfold until_signer, loaded in H; rewrite Hop in H; simpl in H;
  simpl; rewrite ?app_nil_r; exact H.

(** The pipeline from [http.NewRequest] on, the body being known. *)
Ltac after_body w f args cfg body Hprep Hb Hop :=
  let e := fresh "e" in
  let Hnew := fresh "Hnew" in
  destruct (NewRequest_error w (method f) (nth 0 args "")) as [e|] eqn:Hnew;
  [ by_rule run_request Hop | ];
  fold (fresh_request f args body);
  let Hs := fresh "Hs" in
  let t0 := fresh "t" in
  let req0 := fresh "req0" in
  let Hh := fresh "Hh" in
  pose proof (add_headers_silent (headers f) (fresh_request f args body)) as Hs;
  destruct (add_headers (headers f) (fresh_request f args body))
    as [t0 [req0|e]] eqn:Hh;
  unfold trace in Hs; simpl in Hs; subst t0;
  [ | assert (outcome (add_headers (headers f) (fresh_request f args body)) = Fail e)
        by (unfold outcome; rewrite Hh; reflexivity);
      by_rule run_header Hop ];
  let Hb0 := fresh "Hb0" in
  pose proof (add_headers_ok _ _ _ (f_equal snd Hh)) as (_ & _ & _ & Hb0 & _);
  simpl in Hb0; rewrite (readAndReplaceBody_Some req0 body Hb0); simpl;
  specialize (Hprep body req0 Hb eq_refl Hh);
  let creds := fresh "creds" in
  let Hret := fresh "Hret" in
  destruct (Retrieve (Credentials cfg)) as [e|creds] eqn:Hret;
  [ by_rule run_retrieve Hop | ];
  fold (sign_event w f cfg body req0 creds) (sign_answer w f cfg body req0 creds);
  let req := fresh "req" in
  let Hsign := fresh "Hsign" in
  destruct (sign_answer w f cfg body req0 creds) as [e|req] eqn:Hsign;
  [ by_rule run_sign Hop | ];
  let Hpx := fresh "Hpx" in
  pose proof (eq_refl (proxy_source w f)) as Hpx;
  unfold proxy_source at 1 in Hpx;
  destruct (nonempty (proxy f));
  [ let u := fresh "u" in
    destruct (Parse w (proxy f)) as [e|u]; [ by_rule run_proxy Hop | ] | ];
  simpl;
  match goal with
  | |- context [Do w ?tr req] =>
      let response := fresh "response" in
      let Hdo := fresh "Hdo" in
      change tr with (transport f (Proxy tr)) in *;
      destruct (Do w (transport f (Proxy tr)) req) as [e|response] eqn:Hdo;
      [ by_rule run_do Hop | ];
      let Hf := fresh "Hf" in
      destruct (failure (RespBody response)) as [e|] eqn:Hf;
      [ by_rule run_read Hop | by_rule run_print Hop ]
  end.

(** Every run of [runCurl] is one of the runs above. *)
Lemma runCurl_Run (w : World) (f : awsCURLFlags) (args : list string) :
  Run w f args (trace (runCurl w f args)) (outcome (runCurl w f args)).
Proof.
  unfold runCurl.
  destruct (List.length args =? 1)%nat eqn:Hargs; simpl.
  2:{ apply run_args. apply Nat.eqb_neq, Hargs. }
  apply Nat.eqb_eq in Hargs.
  unfold getAWSConfig, http_NewRequest, Println, ReadAll, call, answer, bind,
    emit, ret, fail, trace, outcome.
  destruct (LoadDefaultConfig w (cfgSources f)) as [e|cfg] eqn:Hcfg; simpl.
  { eapply run_config; eauto. }
  rewrite region_of_config, credentials_of_config.
  assert (Hprep : forall body req0,
             body_source w f = inr body ->
             NewRequest_error w (method f) (nth 0 args "") = None ->
             add_headers (headers f) (fresh_request f args body) = ([], Ok req0) ->
             prepared w f args cfg body req0).
  { intros body req0 Hb Hn Hh. unfold prepared, outcome. rewrite Hh. auto. }
  destruct (HasPrefix (data f) "@") eqn:Hp.
  - assert (Hop : opened f = [CallOpen (from1 (data f))])
      by (unfold opened; rewrite Hp; reflexivity).
    destruct (Open w (from1 (data f))) as [e|body] eqn:Ho.
    + assert (Hb : body_source w f = inl e)
        by (unfold body_source; rewrite Hp; exact Ho).
      by_rule run_open Hop.
    + assert (Hb : body_source w f = inr body)
        by (unfold body_source; rewrite Hp; exact Ho).
      simpl. after_body w f args cfg body Hprep Hb Hop.
  - assert (Hop : opened f = [])
      by (unfold opened; rewrite Hp; reflexivity).
    assert (Hb : body_source w f = inr (strings_NewReader (data f)))
      by (unfold body_source; rewrite Hp; reflexivity).
    remember (strings_NewReader (data f)) as body eqn:Hbody. clear Hbody.
    simpl. after_body w f args cfg body Hprep Hb Hop.
Qed.

Lemma forallb_app_true {A} (p : A -> bool) (l l' : list A) :
  forallb p l = true -> forallb p l' = true -> forallb p (l ++ l') = true.
Proof. intros H H'. rewrite forallb_app, H, H'. reflexivity. Qed.

Lemma opened_quiet (f : awsCURLFlags) :
  forallb (fun ev => negb (is_CallDo ev)) (opened f) = true /\
  forallb (fun ev => negb (is_CallSignHTTP ev)) (opened f) = true /\
  stdout (opened f) = [] /\ stderr (opened f) = "".
Proof. unfold opened. destruct (HasPrefix (data f) "@"); auto. Qed.

(** The events of a rule do not touch the network, or the signer. *)
Ltac quiet :=
  unfold no_network_call, not_signed, until_signer, loaded;
  repeat (apply forallb_app_true);
  try reflexivity; try apply opened_quiet.

Lemma In_opened (f : awsCURLFlags) (ev : Event) :
  In ev (opened f) -> ev = CallOpen (from1 (data f)).
Proof.
  unfold opened. destruct (HasPrefix (data f) "@"); simpl; intuition.
Qed.

(** Membership in the events of a rule, one event at a time. *)
Ltac events H :=
  unfold until_signer, loaded in H; simpl in H;
  repeat (rewrite in_app_iff in H; simpl in H);
  repeat match type of H with
         | _ \/ _ => destruct H as [H|H]
         end;
  try contradiction;
  try (apply In_opened in H);
  try discriminate H.

(** The signer is called once everything before it went well, and then
    with the hash of the bytes of the body. *)
Lemma signer_call_inv (w : World) (f : awsCURLFlags) (args : list string)
    (ev : Event) :
  is_CallSignHTTP ev = true ->
  In ev (trace (runCurl w f args)) ->
  exists cfg body req0 creds,
    prepared w f args cfg body req0 /\
    Retrieve (Credentials cfg) = inr creds /\
    ev = sign_event w f cfg body req0 creds.
Proof.
  intros Hev Hin.
  pose proof (runCurl_Run w f args) as HR.
  inversion HR as
    [ Ha | e Ha Hc | cfg e Ha Hc Hb | cfg body e Ha Hc Hb Hn
    | cfg body e Ha Hc Hb Hn Hh | cfg body req0 e Hp Hr
    | cfg body req0 creds e Hp Hr Hs | cfg body req0 creds req e Hp Hr Hs Hx
    | cfg body req0 creds req p e Hp Hr Hs Hx Hd
    | cfg body req0 creds req p resp e Hp Hr Hs Hx Hd Hf
    | cfg body req0 creds req p resp Hp Hr Hs Hx Hd Hf ];
    match goal with Ht : _ = trace _ |- _ => rewrite <- Ht in Hin end;
    events Hin; subst ev; try discriminate Hev; eauto 10.
Qed.

(** The network is reached only with the request the signer returned. *)
Lemma network_call_inv (w : World) (f : awsCURLFlags) (args : list string)
    (ev : Event) :
  is_CallDo ev = true ->
  In ev (trace (runCurl w f args)) ->
  exists cfg body req0 creds req p,
    prepared w f args cfg body req0 /\
    Retrieve (Credentials cfg) = inr creds /\
    sign_answer w f cfg body req0 creds = inr req /\
    proxy_source w f = inr p /\
    ev = CallDo (transport f p) req /\
    In (sign_event w f cfg body req0 creds) (trace (runCurl w f args)).
Proof.
  intros Hev Hin.
  pose proof (runCurl_Run w f args) as HR.
  inversion HR as
    [ Ha | e Ha Hc | cfg e Ha Hc Hb | cfg body e Ha Hc Hb Hn
    | cfg body e Ha Hc Hb Hn Hh | cfg body req0 e Hp Hr
    | cfg body req0 creds e Hp Hr Hs | cfg body req0 creds req e Hp Hr Hs Hx
    | cfg body req0 creds req p e Hp Hr Hs Hx Hd
    | cfg body req0 creds req p resp e Hp Hr Hs Hx Hd Hf
    | cfg body req0 creds req p resp Hp Hr Hs Hx Hd Hf ];
    match goal with Ht : _ = trace _ |- _ => rewrite <- Ht in Hin; try rewrite <- Ht end;
    events Hin; subst ev; try discriminate Hev.
  all: exists cfg, body, req0, creds, req, p;
    repeat (split; [assumption || reflexivity|]);
    simpl; repeat (rewrite in_app_iff; simpl); auto 10.
Qed.

(** Conversely, the signer is called whenever everything before it went
    well. *)
Lemma signer_is_called (w : World) (f : awsCURLFlags) (args : list string)
    (cfg : Config) (body : Reader) (req0 : Request) (creds : aws_Credentials) :
  prepared w f args cfg body req0 ->
  Retrieve (Credentials cfg) = inr creds ->
  In (sign_event w f cfg body req0 creds) (trace (runCurl w f args)).
Proof.
  intros (Ha & Hc & Hb & Hn & Hh) Hr.
  pose proof (runCurl_Run w f args) as HR.
  inversion HR as
    [ Ha' | e Ha' Hc' | cfg' e Ha' Hc' Hb' | cfg' body' e Ha' Hc' Hb' Hn'
    | cfg' body' e Ha' Hc' Hb' Hn' Hh' | cfg' body' req0' e Hp' Hr'
    | cfg' body' req0' creds' e Hp' Hr' Hs'
    | cfg' body' req0' creds' req e Hp' Hr' Hs' Hx'
    | cfg' body' req0' creds' req p e Hp' Hr' Hs' Hx' Hd'
    | cfg' body' req0' creds' req p resp e Hp' Hr' Hs' Hx' Hd' Hf'
    | cfg' body' req0' creds' req p resp Hp' Hr' Hs' Hx' Hd' Hf' ];
    try congruence;
    try (destruct Hp' as (_ & Hc' & Hb' & _ & Hh'));
    try (assert (cfg' = cfg) by congruence; subst cfg');
    try (assert (body' = body) by congruence; subst body');
    try congruence;
    try (assert (req0' = req0) by congruence; subst req0');
    try congruence;
    assert (creds' = creds) by congruence; subst creds';
    unfold until_signer; simpl; repeat (rewrite in_app_iff; simpl); auto 10.
Qed.

(** A flag value without exactly one colon stops the run before the
    signer and the network, whatever the collaborators answer. *)
Lemma malformed_header_stops_run (w : World) (f : awsCURLFlags)
    (args : list string) (h : string) :
  In h (headers f) ->
  colons h <> 1%nat ->
  exists e, outcome (runCurl w f args) = Fail e /\
            no_network_call (trace (runCurl w f args)) /\
            not_signed (trace (runCurl w f args)).
Proof.
  intros Hin Hcol.
  assert (Hstop : forall cfg body req0,
             prepared w f args cfg body req0 -> False).
  { intros cfg body req0 (_ & _ & _ & _ & Hh).
    apply add_headers_ok in Hh. destruct Hh as (Hall & _).
    rewrite forallb_forall in Hall. apply Hall in Hin.
    apply one_colon_iff in Hin. contradiction. }
  pose proof (runCurl_Run w f args) as HR.
  destruct HR; try (exfalso; eapply Hstop; eassumption).
  all: eexists; split; [reflexivity|]; split; quiet.
Qed.

Lemma Execute_one (w : World) (f : awsCURLFlags) (args : list string) :
  List.length args = 1%nat ->
  trace (Execute w f args)
  = trace (runCurl w f args)
      ++ match outcome (runCurl w f args) with
         | Ok _ => []
         | Fail e => report e
         end
  /\ outcome (Execute w f args) = outcome (runCurl w f args).
Proof.
  intro H. unfold Execute. apply Nat.eqb_eq in H. rewrite H.
  destruct (runCurl w f args) as [t [[]|e]]; simpl; rewrite ?app_nil_r; auto.
Qed.

Lemma Execute_other (w : World) (f : awsCURLFlags) (args : list string) :
  List.length args <> 1%nat ->
  exists e, Execute w f args = (report e ++ [Usage], Fail e).
Proof.
  intro H. unfold Execute. apply Nat.eqb_neq in H. rewrite H.
  eexists. reflexivity.
Qed.

Lemma main_Execute (w : World) (f : awsCURLFlags) (args : list string) :
  fst (main w f args) = trace (Execute w f args) /\
  snd (main w f args) = match outcome (Execute w f args) with
                        | Ok _ => 0
                        | Fail _ => 1
                        end.
Proof.
  unfold main. destruct (Execute w f args) as [t [u|e]]; auto.
Qed.

(** The standard streams of the process and the events of [runCurl]. *)
Lemma main_streams (w : World) (f : awsCURLFlags) (args : list string) :
  List.length args = 1%nat ->
  fst (main w f args)
  = trace (runCurl w f args)
      ++ match outcome (runCurl w f args) with
         | Ok _ => []
         | Fail e => report e
         end
  /\ snd (main w f args) = match outcome (runCurl w f args) with
                           | Ok _ => 0
                           | Fail _ => 1
                           end.
Proof.
  intro H. destruct (main_Execute w f args) as [-> ->].
  destruct (Execute_one w f args H) as [-> ->]. auto.
Qed.

(** With only [--access-key AKIDEXAMPLE] and credentials in the
    environment, the request is signed with the credentials of the
    environment and sent; the process exits with 0. *)
Lemma partial_credentials_are_not_refused :
  let w := Sample.world "us-east-1" (inr Sample.env_credentials) in
  let f := with_keys "AKIDEXAMPLE" "" "" Sample.flags in
  partial_credentials f /\
  snd (main w f [Sample.url]) = 0 /\
  existsb is_CallSignHTTP (fst (main w f [Sample.url])) = true /\
  existsb is_CallDo (fst (main w f [Sample.url])) = true /\
  ~ fails_before_signing w f [Sample.url].
Proof.
  cbv zeta. split; [reflexivity|].
  repeat (split; [vm_compute; reflexivity|]).
  intros (H & _). vm_compute in H. discriminate H.
Qed.

Lemma cfgSources_partial (f : awsCURLFlags) :
  partial_credentials f ->
  cfgSources f = cfgSources (with_keys "" "" "" f).
Proof.
  unfold partial_credentials, cfgSources. simpl.
  destruct (nonempty (awsAccessKey f)), (nonempty (awsSecretKey f));
    simpl; intro H; try discriminate H; reflexivity.
Qed.

(** C1, as the code has it: when exactly one of [--access-key] and
    [--secret-key] is given, the value is ignored.  No static credentials
    provider is among the config sources, which are the profile alone when
    one is named, and the whole invocation, events and exit code, is the
    one of the same flags without the explicit credentials. *)
Theorem partial_credentials_ignored (w : World) (f : awsCURLFlags)
    (args : list string) :
  partial_credentials f ->
  cfgSources f
  = (if nonempty (awsProfile f)
     then [WithSharedConfigProfile (awsProfile f)] else []) /\
  main w f args = main w (with_keys "" "" "" f) args.
Proof.
  intro H. pose proof (cfgSources_partial f H) as Hs. split.
  - rewrite Hs. unfold cfgSources. simpl.
    destruct (nonempty (awsProfile f)); reflexivity.
  - unfold main, Execute, runCurl, getAWSConfig. rewrite Hs. reflexivity.
Qed.

Lemma partial_credentials_ignored_witness :
  partial_credentials (with_keys "AKIDEXAMPLE" "" "" Sample.flags) /\
  cfgSources (with_keys "AKIDEXAMPLE" "" "" Sample.flags) = [] /\
  main (Sample.world "us-east-1" (inr Sample.env_credentials))
       (with_keys "AKIDEXAMPLE" "" "" Sample.flags) [Sample.url]
  = main (Sample.world "us-east-1" (inr Sample.env_credentials))
         (with_keys "" "" "" (with_keys "AKIDEXAMPLE" "" "" Sample.flags))
         [Sample.url].
Proof.
  split; [reflexivity|].
  apply (partial_credentials_ignored
           (Sample.world "us-east-1" (inr Sample.env_credentials))
           (with_keys "AKIDEXAMPLE" "" "" Sample.flags) [Sample.url]).
  reflexivity.
Defined.

(** ** Headers *)

(** The invalid-header error is returned for a flag value that does not
    have exactly one colon, before the signer and the network are
    reached. *)
Lemma invalid_header_run (w : World) (f : awsCURLFlags) (args : list string)
    (h : string) :
  outcome (runCurl w f args) = Fail (InvalidHeader h) ->
  In h (headers f) /\ one_colon h = false /\
  no_network_call (trace (runCurl w f args)) /\
  not_signed (trace (runCurl w f args)).
Proof.
  intro Hout. pose proof (runCurl_Run w f args) as HR. rewrite Hout in HR.
  inversion HR as
    [ | | | | cfg body e Ha Hc Hb Hn Hh | | | | | | ]; subst.
  apply add_headers_fail in Hh. destruct Hh as (h' & Heq & Hin & Hcol).
  injection Heq as ->. repeat split; auto.
  - unfold no_network_call. simpl. apply opened_quiet.
  - unfold not_signed. simpl. apply opened_quiet.
Qed.

(** The header map of the request handed to the signer is the empty map
    with the parsed flag values added, name and value trimmed, in the order
    of the flags; [Header.Add] brings the name to its canonical form. *)
Lemma accepted_headers_trimmed (w : World) (f : awsCURLFlags)
    (args : list string) creds req h s r t :
  In (CallSignHTTP creds req h s r t) (trace (runCurl w f args)) ->
  forallb one_colon (headers f) = true /\
  Header req = add_all (map parsed_header (headers f)) [].
Proof.
  intro Hin. apply signer_call_inv in Hin; [|reflexivity].
  destruct Hin as (cfg & body & req0 & creds' & Hp & _ & Hev).
  destruct Hp as (_ & _ & _ & _ & Hh).
  apply add_headers_ok in Hh. destruct Hh as (Hall & _ & _ & _ & Hhd).
  injection Hev as -> -> -> -> -> ->. simpl. auto.
Qed.

Example parsed_header_trims :
  parsed_header "Content-Type:   application/json " =
  ("Content-Type", "application/json").
Proof. reflexivity. Qed.

(** C2, at the header [Referer: https://example.com]: the value holds a
    colon, [strings.Split] gives three parts, and the invocation ends with
    the invalid-header error and exit code 1 before the signer and the
    network are reached. *)
Theorem header_value_with_colon_is_refused :
  let w := Sample.world "us-east-1" (inr Sample.env_credentials) in
  let f := with_headers ["Referer: https://example.com"] Sample.flags in
  Split "Referer: https://example.com" ":"
  = ["Referer"; " https"; "//example.com"] /\
  outcome (runCurl w f [Sample.url])
  = Fail (InvalidHeader "Referer: https://example.com") /\
  snd (main w f [Sample.url]) = 1 /\
  no_network_call (fst (main w f [Sample.url])).
Proof.
  cbv zeta. repeat split; vm_compute; reflexivity.
Qed.

(** *** Region *)

(** No flag, nothing in the environment, nothing in the profile: the
    region of the config is empty, the signer is called with the empty
    region and the request is sent. *)
Lemma empty_region_is_signed :
  let w := Sample.world "" (inr Sample.env_credentials) in
  awsRegion Sample.flags = "" /\
  (forall opts, exists cfg,
      LoadDefaultConfig w opts = inr cfg /\ Region cfg = "") /\
  signatures (fst (main w Sample.flags [Sample.url]))
  = [(empty_digest, "execute-api", "")] /\
  existsb is_CallDo (fst (main w Sample.flags [Sample.url])) = true /\
  snd (main w Sample.flags [Sample.url]) = 0 /\
  ~ fails_before_signing w Sample.flags [Sample.url].
Proof.
  cbv zeta. split; [reflexivity|]. split.
  { intro opts. eexists. split; reflexivity. }
  repeat (split; [vm_compute; reflexivity|]).
  intros (H & _). vm_compute in H. discriminate H.
Qed.

(** C3, as the code has it: the region the signer is given is the value of
    [--region] when it is not empty, and otherwise the region of the config
    the SDK loaded from the config sources, whatever it is. *)
Theorem signed_region (w : World) (f : awsCURLFlags) (args : list string)
    creds req h s r t :
  In (CallSignHTTP creds req h s r t) (trace (runCurl w f args)) ->
  exists cfg,
    LoadDefaultConfig w (cfgSources f) = inr cfg /\
    r = (if nonempty (awsRegion f) then awsRegion f else Region cfg).
Proof.
  intro Hin. apply signer_call_inv in Hin; [|reflexivity].
  destruct Hin as (cfg & body & req0 & creds' & Hp & _ & Hev).
  destruct Hp as (_ & Hcfg & _).
  injection Hev as -> -> -> -> -> ->. exists cfg. split; auto.
Qed.

Lemma signed_region_witness :
  In (CallSignHTTP Sample.env_credentials
        (replaced (strings_NewReader "")
           (fresh_request Sample.flags [Sample.url] (strings_NewReader "")))
        empty_digest "execute-api" "" 1440938160)
     (trace (runCurl (Sample.world "" (inr Sample.env_credentials))
               Sample.flags [Sample.url])) /\
  exists cfg,
    LoadDefaultConfig (Sample.world "" (inr Sample.env_credentials))
      (cfgSources Sample.flags) = inr cfg /\
    "" = (if nonempty (awsRegion Sample.flags)
          then awsRegion Sample.flags else Region cfg).
Proof.
  assert (H : In (CallSignHTTP Sample.env_credentials
        (replaced (strings_NewReader "")
           (fresh_request Sample.flags [Sample.url] (strings_NewReader "")))
        empty_digest "execute-api" "" 1440938160)
     (trace (runCurl (Sample.world "" (inr Sample.env_credentials))
               Sample.flags [Sample.url]))).
  { vm_compute. auto. }
  split; [exact H|].
  exact (signed_region _ _ _ _ _ _ _ _ _ H).
Defined.

(** *** The hash of the body *)

Lemma hashSHA256_empty : hashSHA256 [] = empty_digest.
Proof. vm_compute. reflexivity. Qed.

(** A request without a body is hashed as the empty byte sequence. *)
Lemma nil_body_hash (request : Request) :
  Body request = None ->
  hashSHA256 (fst (readAndReplaceBody request)) = empty_digest.
Proof.
  intro H. unfold readAndReplaceBody. rewrite H. apply hashSHA256_empty.
Qed.

Lemma body_source_string (w : World) (f : awsCURLFlags) :
  HasPrefix (data f) "@" = false ->
  body_source w f = inr (strings_NewReader (data f)).
Proof. intro H. unfold body_source. rewrite H. reflexivity. Qed.

Lemma body_source_file (w : World) (f : awsCURLFlags) (path : string) :
  data f = String "@" path ->
  body_source w f = Open w path.
Proof.
  intro H. unfold body_source, HasPrefix. rewrite H. simpl.
  destruct path; reflexivity.
Qed.

(** C4: when [--data] is empty, every call to the signer carries the
    hexadecimal SHA-256 digest of the empty byte sequence,
    e3b0c442...7852b855, which is what [hashSHA256] gives for no bytes, and
    the request carries an empty body. *)
Theorem empty_body_hash (w : World) (f : awsCURLFlags) (args : list string)
    creds req h s r t :
  data f = "" ->
  In (CallSignHTTP creds req h s r t) (trace (runCurl w f args)) ->
  h = "e3b0c44298fc1c149afbf4c8996fb92427ae41e4649b934ca495991b7852b855" /\
  h = hashSHA256 [] /\
  transmitted req = [].
Proof.
  intros Hd Hin. apply signer_call_inv in Hin; [|reflexivity].
  destruct Hin as (cfg & body & req0 & creds' & Hp & _ & Hev).
  destruct Hp as (_ & _ & Hb & _).
  rewrite body_source_string in Hb by (rewrite Hd; reflexivity).
  injection Hb as <-. rewrite Hd in Hev.
  injection Hev as -> -> -> -> -> ->.
  simpl. rewrite hashSHA256_empty. auto.
Qed.

Lemma empty_body_hash_witness :
  data Sample.flags = "" /\
  In (CallSignHTTP Sample.env_credentials
        (replaced (strings_NewReader "")
           (fresh_request Sample.flags [Sample.url] (strings_NewReader "")))
        empty_digest "execute-api" "us-east-1" 1440938160)
     (trace (runCurl (Sample.world "us-east-1" (inr Sample.env_credentials))
               Sample.flags [Sample.url])) /\
  empty_digest
  = "e3b0c44298fc1c149afbf4c8996fb92427ae41e4649b934ca495991b7852b855" /\
  empty_digest = hashSHA256 [] /\
  transmitted (replaced (strings_NewReader "")
                 (fresh_request Sample.flags [Sample.url]
                    (strings_NewReader ""))) = [].
Proof.
  assert (H : In (CallSignHTTP Sample.env_credentials
        (replaced (strings_NewReader "")
           (fresh_request Sample.flags [Sample.url] (strings_NewReader "")))
        empty_digest "execute-api" "us-east-1" 1440938160)
     (trace (runCurl (Sample.world "us-east-1" (inr Sample.env_credentials))
               Sample.flags [Sample.url]))).
  { vm_compute. auto. }
  split; [reflexivity|]. split; [exact H|].
  exact (empty_body_hash
           (Sample.world "us-east-1" (inr Sample.env_credentials))
           Sample.flags [Sample.url] _ _ _ _ _ _ eq_refl H).
Defined.

(** C5: when [--data] is [@] followed by a path, the file at the path
    opens and reading it to its end gives [content] without an error, then
    every call to the signer carries the SHA-256 digest of [content], as
    FIPS 180-4 defines it, in lower-case hexadecimal, and the request it is
    given carries [content] as its body: the file itself has been read to
    its end by then, and the request holds a fresh reader over the bytes
    read. *)
Theorem file_body_hash (w : World) (f : awsCURLFlags) (args : list string)
    (path : string) (file : Reader) (content : bytes) creds req h s r t :
  data f = String "@" path ->
  Open w path = inr file ->
  fst (ReadAll file) = (content, None) ->
  In (CallSignHTTP creds req h s r t) (trace (runCurl w f args)) ->
  h = Sprintf_x (SHA256.sum (map Z_of_byte content)) /\
  transmitted req = content.
Proof.
  intros Hd Ho Hread Hin. apply signer_call_inv in Hin; [|reflexivity].
  destruct Hin as (cfg & body & req0 & creds' & Hp & _ & Hev).
  destruct Hp as (_ & _ & Hb & _).
  rewrite (body_source_file w f path Hd), Ho in Hb. injection Hb as <-.
  unfold ReadAll in Hread. injection Hread as Hc _.
  injection Hev as -> -> -> -> -> ->. rewrite Hc. simpl. auto.
Qed.

Lemma file_body_hash_witness :
  data (with_data "@payload.json" Sample.flags) = String "@" "payload.json" /\
  Open (Sample.world "us-east-1" (inr Sample.env_credentials)) "payload.json"
  = inr (strings_NewReader "{}") /\
  fst (ReadAll (strings_NewReader "{}")) = (list_byte_of_string "{}", None) /\
  In (CallSignHTTP Sample.env_credentials
        (replaced (strings_NewReader "{}")
           (fresh_request Sample.flags [Sample.url] (strings_NewReader "{}")))
        "44136fa355b3678a1146ad16f7e8649e94fb4fc21fe77e8310c060f61caaff8a"
        "execute-api" "us-east-1" 1440938160)
     (trace (runCurl (Sample.world "us-east-1" (inr Sample.env_credentials))
               (with_data "@payload.json" Sample.flags) [Sample.url])) /\
  "44136fa355b3678a1146ad16f7e8649e94fb4fc21fe77e8310c060f61caaff8a"
  = Sprintf_x (SHA256.sum (map Z_of_byte (list_byte_of_string "{}"))) /\
  transmitted (replaced (strings_NewReader "{}")
                 (fresh_request Sample.flags [Sample.url]
                    (strings_NewReader "{}")))
  = list_byte_of_string "{}".
Proof.
  assert (H : In (CallSignHTTP Sample.env_credentials
        (replaced (strings_NewReader "{}")
           (fresh_request Sample.flags [Sample.url] (strings_NewReader "{}")))
        "44136fa355b3678a1146ad16f7e8649e94fb4fc21fe77e8310c060f61caaff8a"
        "execute-api" "us-east-1" 1440938160)
     (trace (runCurl (Sample.world "us-east-1" (inr Sample.env_credentials))
               (with_data "@payload.json" Sample.flags) [Sample.url]))).
  { vm_compute. auto. }
  do 3 (split; [reflexivity|]). split; [exact H|].
  exact (file_body_hash
           (Sample.world "us-east-1" (inr Sample.env_credentials))
           (with_data "@payload.json" Sample.flags) [Sample.url]
           "payload.json" (strings_NewReader "{}") (list_byte_of_string "{}")
           _ _ _ _ _ _ eq_refl eq_refl eq_refl H).
Defined.

Lemma append_empty_r (s : string) : (s ++ "")%string = s.
Proof. induction s as [|c s IH]; simpl; [|rewrite IH]; reflexivity. Qed.

Lemma stderr_report (e : error) :
  stderr (report e) = ("Error: " ++ Error e ++ newline)%string.
Proof. unfold report. cbn [stderr]. apply append_empty_r. Qed.

Lemma stderr_app (t t' : list Event) :
  stderr (t ++ t') = (stderr t ++ stderr t')%string.
Proof.
  induction t as [|ev t IH]; simpl; [reflexivity|].
  destruct ev; auto. simpl. rewrite IH.
  clear. induction s as [|c s IH]; simpl; [reflexivity|]. rewrite IH. reflexivity.
Qed.

Lemma stdout_app (t t' : list Event) :
  stdout (t ++ t') = stdout t ++ stdout t'.
Proof.
  induction t as [|ev t IH]; simpl; [reflexivity|].
  destruct ev; auto. rewrite IH. apply app_assoc.
Qed.

Lemma failed_run_without_credentials (w : World) (f : awsCURLFlags)
    (args : list string) (t : list Event) (r : result unit) :
  credentials_unavailable w f ->
  Run w f args t r ->
  no_network_call t /\ not_signed t /\
  exists err, r = Fail err /\
    (In CallRetrieve t ->
     exists cfg e, LoadDefaultConfig w (cfgSources f) = inr cfg /\
                   Retrieve (Credentials cfg) = inl e /\ err = External e).
Proof.
  intros Hno HR.
  assert (Hstop : forall cfg body req0 creds,
             prepared w f args cfg body req0 ->
             Retrieve (Credentials cfg) = inr creds -> False).
  { intros cfg body req0 creds (_ & Hc & _) Hr.
    destruct (Hno cfg Hc) as (e & He). congruence. }
  destruct HR; try (exfalso; eapply Hstop; eassumption).
  all: split; [quiet|]; split; [quiet|]; eexists; split; [reflexivity|].
  all: intro Hin; events Hin.
  match goal with Hp : prepared _ _ _ _ _ _ |- _ => destruct Hp as (_ & Hc & _) end.
  eauto.
Qed.

(** What a run writes on the standard streams: nothing on standard error,
    and on standard output the response body and a newline when it ends
    well, nothing otherwise. *)
Lemma Run_streams (w : World) (f : awsCURLFlags) (args : list string)
    (t : list Event) (r : result unit) :
  Run w f args t r ->
  stderr t = "" /\
  match r with
  | Fail _ => stdout t = []
  | Ok _ =>
      exists tr req response,
        In (CallDo tr req) t /\
        Do w tr req = inr response /\
        failure (RespBody response) = None /\
        stdout t = unread (RespBody response) ++ list_byte_of_string newline
  end.
Proof.
  destruct (opened_quiet f) as (_ & _ & Hout & Herr).
  intro HR. destruct HR; unfold until_signer, loaded;
    rewrite ?stderr_app, ?stdout_app; simpl;
    rewrite ?stderr_app, ?stdout_app, ?Hout, ?Herr; simpl; split; auto.
  exists (transport f p), req, response. rewrite app_nil_r.
  repeat split; auto.
  repeat (rewrite in_app_iff; simpl). auto 10.
Qed.

(** C6: when no source yields credentials, the process exits with 1, the
    error is printed on standard error, and neither the signer nor the
    network is reached; when the provider was asked, the error returned is
    the one of the provider. *)
Theorem no_credentials_no_request (w : World) (f : awsCURLFlags)
    (args : list string) :
  credentials_unavailable w f ->
  snd (main w f args) = 1 /\
  no_network_call (fst (main w f args)) /\
  not_signed (fst (main w f args)) /\
  exists err,
    outcome (Execute w f args) = Fail err /\
    stderr (fst (main w f args)) = ("Error: " ++ Error err ++ newline)%string /\
    (In CallRetrieve (fst (main w f args)) ->
     exists cfg e, LoadDefaultConfig w (cfgSources f) = inr cfg /\
                   Retrieve (Credentials cfg) = inl e /\ err = External e).
Proof.
  intro Hno.
  destruct (Nat.eq_dec (List.length args) 1) as [H1|H1].
  - destruct (main_streams w f args H1) as [Ht Hc].
    destruct (Execute_one w f args H1) as [_ Ho].
    pose proof (runCurl_Run w f args) as HR.
    destruct (failed_run_without_credentials w f args _ _ Hno HR)
      as (Hnet & Hsig & err & Herr & Hret).
    destruct (Run_streams w f args _ _ HR) as [Hse _].
    rewrite Ht, Hc, Ho, Herr. split; [reflexivity|].
    split; [apply forallb_app_true; [exact Hnet | reflexivity]|].
    split; [apply forallb_app_true; [exact Hsig | reflexivity]|].
    exists err. split; [reflexivity|]. split.
    + rewrite stderr_app, Hse. apply stderr_report.
    + intro Hin. apply in_app_or in Hin. destruct Hin as [Hin|Hin]; auto.
      simpl in Hin. destruct Hin as [Hin|[]]. discriminate Hin.
  - destruct (main_Execute w f args) as [Ht Hc].
    destruct (Execute_other w f args H1) as (err & He).
    rewrite Ht, Hc, He. unfold trace, outcome. cbn [fst snd].
    split; [reflexivity|]. split; [reflexivity|]. split; [reflexivity|].
    exists err. split; [reflexivity|]. split.
    + rewrite stderr_app, stderr_report. apply append_empty_r.
    + intros [Hin|[Hin|[]]]; discriminate Hin.
Qed.

Lemma no_credentials_no_request_witness :
  credentials_unavailable
    (Sample.world "us-east-1" (inl "failed to retrieve credentials"))
    Sample.flags /\
  snd (main (Sample.world "us-east-1" (inl "failed to retrieve credentials"))
         Sample.flags [Sample.url]) = 1.
Proof.
  assert (H : credentials_unavailable
    (Sample.world "us-east-1" (inl "failed to retrieve credentials"))
    Sample.flags).
  { intros cfg Hc. injection Hc as <-. eexists. reflexivity. }
  split; [exact H|].
  exact (proj1 (no_credentials_no_request
    (Sample.world "us-east-1" (inl "failed to retrieve credentials"))
    Sample.flags [Sample.url] H)).
Defined.

(** *** The signer of the specification in the pipeline *)

Lemma Values_append_value (key k v : string) (h : MIMEHeader) :
  Values key (append_value k v h)
  = if String.eqb k key then Values key h ++ [v] else Values key h.
Proof.
  induction h as [|[k' vs] h IH]; simpl.
  - destruct (String.eqb k key); reflexivity.
  - destruct (String.eqb k' k) eqn:E1; simpl.
    + apply String.eqb_eq in E1. subst k'.
      destruct (String.eqb k key); reflexivity.
    + destruct (String.eqb k' key) eqn:E2; [|exact IH].
      apply String.eqb_eq in E2. subst k'.
      rewrite String.eqb_sym, E1. reflexivity.
Qed.

(** Adding headers to a header map leaves what was under a key where it
    was, and puts the new values of the key after it, in their order. *)
Lemma Values_add_all (key : string) (kvs : list (string * string))
    (h : MIMEHeader) :
  Values key (add_all kvs h) = Values key h ++ values_for key kvs.
Proof.
  revert h; induction kvs as [|[k v] kvs IH]; intro h; simpl.
  - rewrite app_nil_r. reflexivity.
  - unfold add_all in *. simpl. rewrite IH. unfold MIMEHeader_Add.
    rewrite Values_append_value. unfold values_for. simpl.
    destruct (String.eqb (CanonicalMIMEHeaderKey k) key); simpl.
    + rewrite <- app_assoc. reflexivity.
    + reflexivity.
Qed.

(** What the signer of the specification does to a request. *)
Lemma Signer_frame (sch : Signer.Scheme) creds req h s r t sent :
  Signer.SignHTTP sch creds req h s r t = inr sent ->
  Method sent = Method req /\ URL sent = URL req /\ Body sent = Body req /\
  forall key,
    Values key (Header sent)
    = Values key (Header req)
      ++ values_for key (Signer.header_set sch creds req h s r t).
Proof.
  unfold Signer.SignHTTP.
  destruct (String.eqb (AccessKeyID creds) ""
            || String.eqb (SecretAccessKey creds) "")%bool; [discriminate|].
  intro H. injection H as <-. cbn [Method URL Body Header].
  do 3 (split; [reflexivity|]). intro key.
  exact (Values_add_all key (Signer.header_set sch creds req h s r t)
           (Header req)).
Qed.

Example keyed_hash_rfc4231 :
  Sprintf_x (Signer.keyed_hash (Signer.octets "Jefe")
               (Signer.octets "what do ya want for nothing?"))
  = "5bdcc146bf60754e6a042426089575c75a003f089d2739839dec58b964ec3843".
Proof. vm_compute. reflexivity. Qed.

Example sample_scheme_timestamp :
  Signer.timestamp sample_scheme 1440938160 = "20150830T123600Z" /\
  Signer.date sample_scheme 951782400 = "20000229".
Proof. vm_compute. auto. Qed.

(** C7, with the signer of the specification in the place of the SDK's:
    the request that goes to the network is the one the signer returned.
    Its body delivers the bytes that were read from the body source, which
    are the bytes whose SHA-256 digest was handed to the signer; its method
    and its URL are those of the request handed to the signer; and under
    every key its header map holds what the request handed to the signer
    held, followed by the values the signer attached under that key. *)
Theorem signing_keeps_body (sch : Signer.Scheme) (w : World)
    (f : awsCURLFlags) (args : list string) (tr : Transport) (sent : Request) :
  In (CallDo tr sent) (trace (runCurl (with_signer sch w) f args)) ->
  exists creds req body payload s r t,
    body_source w f = inr body /\
    fst (fst (ReadAll body)) = payload /\
    In (CallSignHTTP creds req
          (Sprintf_x (SHA256.sum (map Z_of_byte payload))) s r t)
       (trace (runCurl (with_signer sch w) f args)) /\
    transmitted req = payload /\
    transmitted sent = payload /\
    Method sent = Method req /\ URL sent = URL req /\
    forall key,
      Values key (Header sent)
      = Values key (Header req)
        ++ values_for key
             (Signer.header_set sch creds req
                (Sprintf_x (SHA256.sum (map Z_of_byte payload))) s r t).
Proof.
  intro Hin. apply network_call_inv in Hin; [|reflexivity].
  destruct Hin
    as (cfg & body & req0 & creds & req & p & Hp & Hr & Hs & _ & Hev & Hsig).
  injection Hev as -> ->.
  unfold sign_answer in Hs. simpl in Hs.
  destruct (Signer_frame _ _ _ _ _ _ _ _ Hs) as (Hm & Hu & Hbody & Hh).
  destruct Hp as (_ & _ & Hb & _).
  exists creds, (replaced body req0), body, (unread body), (awsService f),
    (resolved_region f cfg), (Now w).
  unfold transmitted. rewrite Hbody. simpl.
  repeat (split; [assumption || reflexivity|]). exact Hh.
Qed.

Lemma signing_keeps_body_witness :
  In (CallDo {| InsecureSkipVerify := false; Proxy := None |}
        {| Method := "GET"; URL := Sample.url;
           Header := [("Accept", ["*/*"]);
                      ("X-Amz-Date", ["20150830T123600Z"]);
                      ("Authorization", [sample_authorization])];
           Body := Some (strings_NewReader "{}") |})
     (trace (runCurl
               (with_signer sample_scheme
                  (Sample.world "us-east-1" (inr Sample.env_credentials)))
               (with_headers ["accept: */*"]
                  (with_data "@payload.json" Sample.flags))
               [Sample.url])) /\
  transmitted
    {| Method := "GET"; URL := Sample.url;
       Header := [("Accept", ["*/*"]);
                  ("X-Amz-Date", ["20150830T123600Z"]);
                  ("Authorization", [sample_authorization])];
       Body := Some (strings_NewReader "{}") |}
  = list_byte_of_string "{}".
Proof.
  assert (H : In (CallDo {| InsecureSkipVerify := false; Proxy := None |}
        {| Method := "GET"; URL := Sample.url;
           Header := [("Accept", ["*/*"]);
                      ("X-Amz-Date", ["20150830T123600Z"]);
                      ("Authorization", [sample_authorization])];
           Body := Some (strings_NewReader "{}") |})
     (trace (runCurl
               (with_signer sample_scheme
                  (Sample.world "us-east-1" (inr Sample.env_credentials)))
               (with_headers ["accept: */*"]
                  (with_data "@payload.json" Sample.flags))
               [Sample.url]))).
  { vm_compute. do 4 right. left. reflexivity. }
  split; [exact H|].
  destruct (signing_keeps_body _ _ _ _ _ _ H)
    as (creds & req & body & payload & s & r & t
        & Hb & Hread & _ & _ & Hsent & _).
  vm_compute in Hb. injection Hb as <-.
  rewrite Hsent, <- Hread. reflexivity.
Defined.

(** ** Reading the body a second time

    After [readAndReplaceBody] the body can be read again, and gives the
    same bytes and the same request. *)

Lemma readAndReplaceBody_again (request : Request) :
  readAndReplaceBody (snd (readAndReplaceBody request))
  = readAndReplaceBody request.
Proof.
  unfold readAndReplaceBody. destruct (Body request) as [body|] eqn:Hb; simpl.
  - reflexivity.
  - rewrite Hb. reflexivity.
Qed.


(** ** Standard output, standard error and the exit code *)

(** The target answers with the two bytes [ok]; three bytes are written on
    standard output. *)
Lemma stdout_is_not_the_body_alone :
  let w := Sample.world "us-east-1" (inr Sample.env_credentials) in
  (forall tr req, Do w tr req = inr {| RespBody := strings_NewReader "ok" |}) /\
  snd (main w Sample.flags [Sample.url]) = 0 /\
  stdout (fst (main w Sample.flags [Sample.url]))
  = list_byte_of_string "ok" ++ list_byte_of_string newline /\
  stdout (fst (main w Sample.flags [Sample.url])) <> list_byte_of_string "ok".
Proof.
  cbv zeta. split; [reflexivity|].
  split; [vm_compute; reflexivity|]. split; [vm_compute; reflexivity|].
  vm_compute. discriminate.
Qed.

(** C9, as the code has it: when the invocation ends well, the exit code is
    0, nothing is written on standard error, and standard output holds the
    body of the response followed by one newline; when it ends with an
    error, the exit code is 1, nothing is written on standard output, and
    standard error holds the message of the error after [Error: ]. *)
Theorem main_output (w : World) (f : awsCURLFlags) (args : list string) :
  match outcome (Execute w f args) with
  | Ok _ =>
      snd (main w f args) = 0 /\
      stderr (fst (main w f args)) = "" /\
      exists tr req response,
        In (CallDo tr req) (fst (main w f args)) /\
        Do w tr req = inr response /\
        failure (RespBody response) = None /\
        stdout (fst (main w f args))
        = unread (RespBody response) ++ list_byte_of_string newline
  | Fail err =>
      snd (main w f args) = 1 /\
      stdout (fst (main w f args)) = [] /\
      stderr (fst (main w f args)) = ("Error: " ++ Error err ++ newline)%string
  end.
Proof.
  destruct (Nat.eq_dec (List.length args) 1) as [H1|H1].
  - destruct (main_streams w f args H1) as [Ht Hc].
    destruct (Execute_one w f args H1) as [_ Ho].
    pose proof (runCurl_Run w f args) as HR.
    destruct (Run_streams w f args _ _ HR) as [Hse Hso].
    rewrite Ht, Hc, Ho.
    destruct (outcome (runCurl w f args)) as [u|err].
    + rewrite app_nil_r. split; [reflexivity|]. split; [exact Hse|exact Hso].
    + split; [reflexivity|]. rewrite stdout_app, stderr_app, Hso, Hse.
      split; [reflexivity|]. apply stderr_report.
  - destruct (main_Execute w f args) as [Ht Hc].
    destruct (Execute_other w f args H1) as (err & He).
    rewrite Ht, Hc, He. unfold trace, outcome. cbn [fst snd].
    split; [reflexivity|]. split; [reflexivity|].
    rewrite stderr_app, stderr_report. apply append_empty_r.
Qed.

(** ** An error while the body is read *)

Lemma readAndReplaceBody_drops_error (request : Request) (body : Reader)
    (payload : bytes) (err : string) :
  Body request = Some body ->
  fst (ReadAll body) = (payload, Some err) ->
  readAndReplaceBody request
  = (payload, set_Body (Some (bytes_NewReader payload)) request).
Proof.
  intros Hb Hr. unfold readAndReplaceBody. rewrite Hb.
  unfold ReadAll in *. injection Hr as <- _. reflexivity.
Qed.

(** C10, at [--data @/etc]: the directory opens, reading it fails, and
    the invocation goes on: the signer is given the hash of no bytes, the
    request is sent, nothing is written on standard error and the exit
    code is 0. *)
Theorem body_read_error_is_dropped :
  let w := Sample.world "us-east-1" (inr Sample.env_credentials) in
  let f := with_data "@/etc" Sample.flags in
  body_source w f
  = inr {| unread := []; failure := Some "read /etc: is a directory" |} /\
  ReadAll {| unread := []; failure := Some "read /etc: is a directory" |}
  = ([], Some "read /etc: is a directory",
     {| unread := []; failure := Some "read /etc: is a directory" |}) /\
  signatures (fst (main w f [Sample.url]))
  = [(empty_digest, "execute-api", "us-east-1")] /\
  existsb is_CallDo (fst (main w f [Sample.url])) = true /\
  stderr (fst (main w f [Sample.url])) = "" /\
  snd (main w f [Sample.url]) = 0.
Proof.
  cbv zeta. repeat split; vm_compute; reflexivity.
Qed.

(** ** The shape of a digest *)

Lemma be_bytes_length (n : nat) (x : Z) :
  List.length (SHA256.be_bytes n x) = n.
Proof.
  unfold SHA256.be_bytes. rewrite length_map, length_rev, length_seq.
  reflexivity.
Qed.

Lemma be_bytes_range (n : nat) (x b : Z) :
  In b (SHA256.be_bytes n x) -> 0 <= b < 256.
Proof.
  unfold SHA256.be_bytes. rewrite in_map_iff. intros (i & <- & _).
  change 0xff with (Z.ones 8). rewrite Z.land_ones by lia.
  apply Z.mod_pos_bound. lia.
Qed.

(** The padded message is a whole number of blocks, so that the fuel of
    [SHA256.blocks] reaches its end. *)
Lemma pad_length (msg : list Z) :
  (Z.of_nat (List.length (SHA256.pad msg))) mod 64 = 0 /\
  (64 <= List.length (SHA256.pad msg))%nat.
Proof.
  unfold SHA256.pad. cbv zeta.
  rewrite !length_app, repeat_length, be_bytes_length. simpl List.length.
  set (len := Z.of_nat (List.length msg)).
  assert (Hlen : 0 <= len) by (unfold len; lia).
  pose proof (Z.mod_pos_bound (55 - len) 64 ltac:(lia)) as Hm.
  pose proof (Z.div_mod (55 - len) 64 ltac:(lia)) as Hd.
  set (z := (55 - len) mod 64) in *. set (q := (55 - len) / 64) in *.
  assert (Hq : q <= 0) by lia.
  replace (Z.of_nat (List.length msg + (1 + (Z.to_nat z + 8))))
    with (64 * (1 - q)) by (unfold len in *; lia).
  split.
  - rewrite Z.mul_comm. apply Z.mod_mul. lia.
  - unfold len in *. lia.
Qed.

Lemma block_length (h blk : list Z) :
  List.length h = 8%nat -> List.length (SHA256.block h blk) = 8%nat.
Proof.
  intro H. unfold SHA256.block. cbv zeta.
  rewrite length_map, length_combine, H. reflexivity.
Qed.

Lemma blocks_length (n : nat) (h bs : list Z) :
  List.length h = 8%nat -> List.length (SHA256.blocks n h bs) = 8%nat.
Proof.
  revert h bs; induction n as [|n IH]; intros h bs H; simpl; auto.
  apply IH, block_length, H.
Qed.

Lemma flat_map_length_const {A B} (g : A -> list B) (k : nat) (l : list A) :
  (forall a, List.length (g a) = k) ->
  List.length (flat_map g l) = (k * List.length l)%nat.
Proof.
  intro H. induction l as [|a l IH]; simpl; [lia|].
  rewrite length_app, H, IH. lia.
Qed.

Lemma sum_length (msg : list Z) : List.length (SHA256.sum msg) = 32%nat.
Proof.
  unfold SHA256.sum. cbv zeta.
  rewrite (flat_map_length_const _ 4) by (intro; apply be_bytes_length).
  rewrite blocks_length; reflexivity.
Qed.

Lemma sum_range (msg : list Z) (b : Z) :
  In b (SHA256.sum msg) -> 0 <= b < 256.
Proof.
  unfold SHA256.sum. cbv zeta. rewrite in_flat_map.
  intros (x & _ & H). eapply be_bytes_range, H.
Qed.

Lemma hex_digit_is_hex (d : Z) :
  0 <= d < 16 -> is_hex_digit (hex_digit d) = true.
Proof.
  intro H.
  assert (Hd : d = 0 \/ d = 1 \/ d = 2 \/ d = 3 \/ d = 4 \/ d = 5 \/ d = 6
               \/ d = 7 \/ d = 8 \/ d = 9 \/ d = 10 \/ d = 11 \/ d = 12
               \/ d = 13 \/ d = 14 \/ d = 15) by lia.
  repeat (destruct Hd as [->|Hd]; [reflexivity|]). subst d. reflexivity.
Qed.

Lemma Sprintf_x_format (b : list Z) :
  (forall x, In x b -> 0 <= x < 256) ->
  String.length (Sprintf_x b) = (2 * List.length b)%nat /\
  lower_hex (Sprintf_x b) = true.
Proof.
  unfold lower_hex. induction b as [|x b IH]; intro H; simpl; [auto|].
  destruct IH as [IHl IHh]; [intros y Hy; apply H; right; exact Hy|].
  assert (Hx : 0 <= x < 256) by (apply H; left; reflexivity).
  split; [rewrite IHl; lia|].
  rewrite IHh, !andb_true_r. apply andb_true_iff. split.
  - apply hex_digit_is_hex. rewrite Z.shiftr_div_pow2 by lia.
    change (2 ^ 4) with 16. split.
    + apply Z.div_pos; lia.
    + apply Z.div_lt_upper_bound; lia.
  - apply hex_digit_is_hex. change 0xf with (Z.ones 4).
    rewrite Z.land_ones by lia. apply Z.mod_pos_bound. lia.
Qed.

(** X1: whatever the content, even none, [hashSHA256] returns 64
    characters, each a lower-case hexadecimal digit. *)
Theorem hashSHA256_format (content : bytes) :
  String.length (hashSHA256 content) = 64%nat /\
  lower_hex (hashSHA256 content) = true.
Proof.
  unfold hashSHA256.
  destruct (Sprintf_x_format (SHA256.sum (map Z_of_byte content))) as [Hl Hh].
  - intros x Hx. eapply sum_range, Hx.
  - rewrite Hl, sum_length. auto.
Qed.

(** ** The rules decide the run *)

(** Two answers of one collaborator to one question are the same answer. *)
Ltac same_answers :=
  repeat match goal with
         | H : prepared _ _ _ _ _ _ |- _ =>
             destruct H as (? & ? & ? & ? & ?)
         | H : ?a = inr ?x, H' : ?a = inr ?y |- _ =>
             assert (x = y) by congruence; subst y; clear H'
         | H : ?a = inl ?x, H' : ?a = inl ?y |- _ =>
             assert (x = y) by congruence; subst y; clear H'
         | H : ?a = Ok ?x, H' : ?a = Ok ?y |- _ =>
             assert (x = y) by congruence; subst y; clear H'
         | H : ?a = Fail ?x, H' : ?a = Fail ?y |- _ =>
             assert (x = y) by congruence; subst y; clear H'
         | H : ?a = Some ?x, H' : ?a = Some ?y |- _ =>
             assert (x = y) by congruence; subst y; clear H'
         end.

Lemma Run_deterministic (w : World) (f : awsCURLFlags) (args : list string)
    (t t' : list Event) (r r' : result unit) :
  Run w f args t r -> Run w f args t' r' -> t = t' /\ r = r'.
Proof.
  intros H H'. destruct H; destruct H'; same_answers;
    try congruence; auto.
Qed.

(** A run that follows a rule is the run of [runCurl]. *)
Lemma Run_complete (w : World) (f : awsCURLFlags) (args : list string)
    (t : list Event) (r : result unit) :
  Run w f args t r ->
  trace (runCurl w f args) = t /\ outcome (runCurl w f args) = r.
Proof.
  intro H. apply (Run_deterministic w f args _ _ _ _ (runCurl_Run w f args) H).
Qed.

(** ** Where the body comes from *)

Lemma Run_opens (w : World) (f : awsCURLFlags) (args : list string)
    (t : list Event) (r : result unit) (p : string) :
  Run w f args t r -> In (CallOpen p) t -> In (CallOpen p) (opened f).
Proof.
  intros HR Hin. destruct HR; unfold until_signer, loaded in Hin; simpl in Hin;
    repeat (rewrite in_app_iff in Hin; simpl in Hin);
    intuition (try discriminate).
Qed.

Lemma opened_file (f : awsCURLFlags) (path : string) :
  data f = String "@" path -> opened f = [CallOpen path].
Proof.
  intro H. unfold opened, HasPrefix. rewrite H. simpl.
  destruct path; reflexivity.
Qed.

(** X2: when [--data] does not start with [@], the call to the signer
    carries the SHA-256 digest, in lower-case hexadecimal, of the bytes of
    the string itself, the request it is given has these bytes as its
    body, and no file is opened in the run. *)
Theorem inline_data_is_the_body (w : World) (f : awsCURLFlags)
    (args : list string) creds req h s r t :
  HasPrefix (data f) "@" = false ->
  In (CallSignHTTP creds req h s r t) (trace (runCurl w f args)) ->
  h = Sprintf_x (SHA256.sum (map Z_of_byte (list_byte_of_string (data f)))) /\
  transmitted req = list_byte_of_string (data f) /\
  forall p, ~ In (CallOpen p) (trace (runCurl w f args)).
Proof.
  intros Hp Hin. split; [|split].
  - apply signer_call_inv in Hin; [|reflexivity].
    destruct Hin as (cfg & body & req0 & creds' & Hprep & _ & Hev).
    destruct Hprep as (_ & _ & Hb & _).
    rewrite (body_source_string w f Hp) in Hb. injection Hb as <-.
    injection Hev as -> -> -> -> -> ->. reflexivity.
  - apply signer_call_inv in Hin; [|reflexivity].
    destruct Hin as (cfg & body & req0 & creds' & Hprep & _ & Hev).
    destruct Hprep as (_ & _ & Hb & _).
    rewrite (body_source_string w f Hp) in Hb. injection Hb as <-.
    injection Hev as -> -> -> -> -> ->. reflexivity.
  - intros p Hop.
    apply (Run_opens w f args _ _ p (runCurl_Run w f args)) in Hop.
    unfold opened in Hop. rewrite Hp in Hop. exact Hop.
Qed.

Lemma inline_data_is_the_body_witness :
  HasPrefix (data (with_data "a@b" Sample.flags)) "@" = false /\
  In (CallSignHTTP Sample.env_credentials
        (replaced (strings_NewReader "a@b")
           (fresh_request Sample.flags [Sample.url] (strings_NewReader "a@b")))
        "7508d8b5018ea640b85269861a101203f0c26900555268e930025dac844b0f35"
        "execute-api" "us-east-1" 1440938160)
     (trace (runCurl (Sample.world "us-east-1" (inr Sample.env_credentials))
               (with_data "a@b" Sample.flags) [Sample.url])) /\
  "7508d8b5018ea640b85269861a101203f0c26900555268e930025dac844b0f35"
  = Sprintf_x (SHA256.sum (map Z_of_byte (list_byte_of_string "a@b"))) /\
  transmitted (replaced (strings_NewReader "a@b")
                 (fresh_request Sample.flags [Sample.url]
                    (strings_NewReader "a@b")))
  = list_byte_of_string "a@b" /\
  forall p,
    ~ In (CallOpen p)
        (trace (runCurl (Sample.world "us-east-1" (inr Sample.env_credentials))
                  (with_data "a@b" Sample.flags) [Sample.url])).
Proof.
  assert (H : In (CallSignHTTP Sample.env_credentials
        (replaced (strings_NewReader "a@b")
           (fresh_request Sample.flags [Sample.url] (strings_NewReader "a@b")))
        "7508d8b5018ea640b85269861a101203f0c26900555268e930025dac844b0f35"
        "execute-api" "us-east-1" 1440938160)
     (trace (runCurl (Sample.world "us-east-1" (inr Sample.env_credentials))
               (with_data "a@b" Sample.flags) [Sample.url]))).
  { vm_compute. auto. }
  split; [reflexivity|]. split; [exact H|].
  exact (inline_data_is_the_body
           (Sample.world "us-east-1" (inr Sample.env_credentials))
           (with_data "a@b" Sample.flags) [Sample.url] _ _ _ _ _ _ eq_refl H).
Defined.

(** X3: when [--data] names a file that does not open, the run stops
    there: the config was loaded, the file was asked for, and the error of
    [os.Open] is returned as it is; no credentials are retrieved, nothing
    is signed or sent. *)
Theorem unreadable_file_stops_run (w : World) (f : awsCURLFlags)
    (url path e : string) (cfg : Config) :
  data f = String "@" path ->
  LoadDefaultConfig w (cfgSources f) = inr cfg ->
  Open w path = inl e ->
  runCurl w f [url]
  = ([CallLoadDefaultConfig (cfgSources f); CallOpen path], Fail (External e)).
Proof.
  intros Hd Hc Ho.
  assert (HR : Run w f [url] (loaded f ++ opened f) (Fail (External e))).
  { eapply run_open; eauto. rewrite (body_source_file w f path Hd). exact Ho. }
  apply Run_complete in HR. destruct HR as [Ht Hr].
  rewrite (opened_file f path Hd) in Ht. unfold trace, outcome in *.
  destruct (runCurl w f [url]) as [t r]. simpl in *. subst. reflexivity.
Qed.

Lemma unreadable_file_stops_run_witness :
  runCurl (Sample.world "us-east-1" (inr Sample.env_credentials))
          (with_data "@missing.json" Sample.flags) [Sample.url]
  = ([CallLoadDefaultConfig (cfgSources (with_data "@missing.json" Sample.flags));
      CallOpen "missing.json"],
     Fail (External "open missing.json: no such file or directory")).
Proof.
  exact (unreadable_file_stops_run
           (Sample.world "us-east-1" (inr Sample.env_credentials))
           (with_data "@missing.json" Sample.flags) Sample.url
           "missing.json" "open missing.json: no such file or directory"
           _ eq_refl eq_refl eq_refl).
Defined.

(** ** The config *)


(** X5: the config sources [getAWSConfig] hands to the SDK.  A profile is
    a source exactly when [--profile] is not empty, and it comes first.  A
    credentials provider is a source exactly when both keys are given, it
    comes last, and retrieving from it never fails: it gives the two keys
    and the session token of the flags, the token be it empty. *)
Theorem config_sources (f : awsCURLFlags) :
  (forall p, In (WithSharedConfigProfile p) (cfgSources f)
             <-> (p = awsProfile f /\ p <> "")) /\
  ((exists c, In (WithCredentialsProvider c) (cfgSources f))
   <-> (awsAccessKey f <> "" /\ awsSecretKey f <> "")) /\
  (forall c, In (WithCredentialsProvider c) (cfgSources f) ->
             Retrieve c = inr {| AccessKeyID := awsAccessKey f;
                                 SecretAccessKey := awsSecretKey f;
                                 SessionToken := awsSessionToken f |}) /\
  (forall p c, In (WithSharedConfigProfile p) (cfgSources f) ->
               In (WithCredentialsProvider c) (cfgSources f) ->
               exists c', cfgSources f
                          = [WithSharedConfigProfile p; WithCredentialsProvider c']).
Proof.
  unfold cfgSources, nonempty, NewStaticCredentialsProvider. cbv zeta.
  destruct (String.eqb_spec (awsProfile f) "") as [Hp|Hp];
    destruct (String.eqb_spec (awsAccessKey f) "") as [Hk|Hk];
    destruct (String.eqb_spec (awsSecretKey f) "") as [Hs|Hs]; simpl.
  all: repeat split; try intros; 
    repeat match goal with
           | H : _ \/ _ |- _ => destruct H
           | H : False |- _ => destruct H
           | H : exists _, _ |- _ => destruct H
           | H : _ /\ _ |- _ => destruct H
           | H : WithSharedConfigProfile _ = WithSharedConfigProfile _ |- _ =>
               injection H as <-
           | H : WithCredentialsProvider _ = WithCredentialsProvider _ |- _ =>
               injection H as <-
           | H : WithSharedConfigProfile _ = WithCredentialsProvider _ |- _ =>
               discriminate H
           | H : WithCredentialsProvider _ = WithSharedConfigProfile _ |- _ =>
               discriminate H
           end;
    subst; simpl; try congruence; eauto.
Qed.

(** X6: if the SDK uses the credentials provider it is given, then with
    both keys on the command line the signer is called with exactly the
    access key, the secret key and the session token of the flags, whatever
    the environment and the profile hold. *)
Theorem explicit_credentials_sign (w : World) (f : awsCURLFlags)
    (args : list string) creds req h s r t :
  given_provider_is_used w (cfgSources f) ->
  awsAccessKey f <> "" ->
  awsSecretKey f <> "" ->
  In (CallSignHTTP creds req h s r t) (trace (runCurl w f args)) ->
  creds = {| AccessKeyID := awsAccessKey f;
             SecretAccessKey := awsSecretKey f;
             SessionToken := awsSessionToken f |}.
Proof.
  intros Hsdk Hk Hs Hin. apply signer_call_inv in Hin; [|reflexivity].
  destruct Hin as (cfg & body & req0 & creds' & Hprep & Hret & Hev).
  destruct Hprep as (_ & Hcfg & _). injection Hev as -> _ _ _ _ _.
  assert (Hsrc : In (WithCredentialsProvider
                       (NewStaticCredentialsProvider (awsAccessKey f)
                          (awsSecretKey f) (awsSessionToken f)))
                    (cfgSources f)).
  { unfold cfgSources, nonempty. cbv zeta.
    destruct (String.eqb_spec (awsAccessKey f) ""); [contradiction|].
    destruct (String.eqb_spec (awsSecretKey f) ""); [contradiction|].
    simpl. apply in_or_app. right. left. reflexivity. }
  rewrite (Hsdk _ _ Hcfg Hsrc) in Hret.
  unfold NewStaticCredentialsProvider in Hret. simpl in Hret.
  destruct (String.eqb_spec (awsAccessKey f) ""); [contradiction|].
  destruct (String.eqb_spec (awsSecretKey f) ""); [contradiction|].
  simpl in Hret. congruence.
Qed.

Lemma explicit_credentials_sign_witness :
  given_provider_is_used
    (Sample.world "us-east-1" (inr Sample.env_credentials))
    (cfgSources (with_keys "AKIDOTHER" "other" "token" Sample.flags)) /\
  In (CallSignHTTP
        {| AccessKeyID := "AKIDOTHER"; SecretAccessKey := "other";
           SessionToken := "token" |}
        (replaced (strings_NewReader "")
           (fresh_request Sample.flags [Sample.url] (strings_NewReader "")))
        empty_digest "execute-api" "us-east-1" 1440938160)
     (trace (runCurl (Sample.world "us-east-1" (inr Sample.env_credentials))
               (with_keys "AKIDOTHER" "other" "token" Sample.flags)
               [Sample.url])) /\
  {| AccessKeyID := "AKIDOTHER"; SecretAccessKey := "other";
     SessionToken := "token" |}
  = {| AccessKeyID := awsAccessKey (with_keys "AKIDOTHER" "other" "token" Sample.flags);
       SecretAccessKey := awsSecretKey (with_keys "AKIDOTHER" "other" "token" Sample.flags);
       SessionToken := awsSessionToken (with_keys "AKIDOTHER" "other" "token" Sample.flags) |}.
Proof.
  assert (Hsdk : given_provider_is_used
    (Sample.world "us-east-1" (inr Sample.env_credentials))
    (cfgSources (with_keys "AKIDOTHER" "other" "token" Sample.flags))).
  { intros cfg p Hc Hin. simpl in Hin. destruct Hin as [Hin|[]].
    injection Hin as <-. simpl in Hc. unfold Sample.load in Hc.
    injection Hc as <-. reflexivity. }
  assert (Hin : In (CallSignHTTP
        {| AccessKeyID := "AKIDOTHER"; SecretAccessKey := "other";
           SessionToken := "token" |}
        (replaced (strings_NewReader "")
           (fresh_request Sample.flags [Sample.url] (strings_NewReader "")))
        empty_digest "execute-api" "us-east-1" 1440938160)
     (trace (runCurl (Sample.world "us-east-1" (inr Sample.env_credentials))
               (with_keys "AKIDOTHER" "other" "token" Sample.flags)
               [Sample.url]))).
  { vm_compute. auto. }
  split; [exact Hsdk|]. split; [exact Hin|].
  assert (Hk : awsAccessKey (with_keys "AKIDOTHER" "other" "token" Sample.flags)
               <> "") by discriminate.
  assert (Hs : awsSecretKey (with_keys "AKIDOTHER" "other" "token" Sample.flags)
               <> "") by discriminate.
  exact (explicit_credentials_sign
           (Sample.world "us-east-1" (inr Sample.env_credentials))
           (with_keys "AKIDOTHER" "other" "token" Sample.flags) [Sample.url]
           _ _ _ _ _ _ Hsdk Hk Hs Hin).
Defined.

(** ** The request *)

(** X7: the request handed to the signer has the method of [--request],
    [GET] when that is empty, and the URL given as the argument.  Its
    header map holds, under every key, the values of the header flags
    whose name, trimmed and brought to the canonical form of a MIME header
    key, is that key: each value trimmed, in the order of the flags.  So
    [content-type] and [Content-Type] end under the one key
    [Content-Type].  The service is the one of [--service] and the time
    the one of the clock. *)
Theorem signed_request_shape (w : World) (f : awsCURLFlags)
    (args : list string) creds req h s r t :
  In (CallSignHTTP creds req h s r t) (trace (runCurl w f args)) ->
  args = [URL req] /\
  Method req = (if String.eqb (method f) "" then "GET" else method f) /\
  (forall key,
      Values key (Header req)
      = values_for key (map parsed_header (headers f))) /\
  s = awsService f /\
  t = Now w.
Proof.
  intro Hin. apply signer_call_inv in Hin; [|reflexivity].
  destruct Hin as (cfg & body & req0 & creds' & Hprep & _ & Hev).
  destruct Hprep as (Ha & _ & _ & _ & Hh).
  apply add_headers_ok in Hh. destruct Hh as (_ & Hm & Hu & _ & Hhd).
  injection Hev as -> -> -> -> -> ->. simpl in *.
  rewrite Hm, Hu, Hhd. repeat split; auto.
  - destruct args as [|a [|b args]]; simpl in Ha; try discriminate Ha.
    reflexivity.
  - intro key. apply Values_add_all.
Qed.

Lemma signed_request_shape_witness :
  In (CallSignHTTP Sample.env_credentials
        {| Method := "GET"; URL := Sample.url;
           Header := [("Content-Type", ["text/plain"; "text/html"]);
                      ("X-Empty", [""])];
           Body := Some (strings_NewReader "") |}
        empty_digest "execute-api" "us-east-1" 1440938160)
     (trace (runCurl (Sample.world "us-east-1" (inr Sample.env_credentials))
               (with_headers ["content-type : text/plain "; "X-Empty:";
                              "Content-Type: text/html"]
                  Sample.flags)
               [Sample.url])) /\
  values_for "Content-Type"
    (map parsed_header ["content-type : text/plain "; "X-Empty:";
                        "Content-Type: text/html"])
  = ["text/plain"; "text/html"] /\
  values_for "content-type"
    (map parsed_header ["content-type : text/plain "; "X-Empty:";
                        "Content-Type: text/html"])
  = [].
Proof.
  assert (Hin : In (CallSignHTTP Sample.env_credentials
        {| Method := "GET"; URL := Sample.url;
           Header := [("Content-Type", ["text/plain"; "text/html"]);
                      ("X-Empty", [""])];
           Body := Some (strings_NewReader "") |}
        empty_digest "execute-api" "us-east-1" 1440938160)
     (trace (runCurl (Sample.world "us-east-1" (inr Sample.env_credentials))
               (with_headers ["content-type : text/plain "; "X-Empty:";
                              "Content-Type: text/html"]
                  Sample.flags)
               [Sample.url]))).
  { vm_compute. auto. }
  split; [exact Hin|].
  destruct (signed_request_shape
              (Sample.world "us-east-1" (inr Sample.env_credentials))
              (with_headers ["content-type : text/plain "; "X-Empty:";
                             "Content-Type: text/html"] Sample.flags)
              [Sample.url] _ _ _ _ _ _ Hin) as (_ & _ & Hh & _).
  split.
  - exact (eq_sym (Hh "Content-Type")).
  - exact (eq_sym (Hh "content-type")).
Defined.

(** ** One request for one invocation *)

Lemma count_app (p : Event -> bool) (t t' : list Event) :
  count p (t ++ t') = (count p t + count p t')%nat.
Proof. unfold count. rewrite filter_app, length_app. reflexivity. Qed.

(** X8: in one run every collaborator is asked at most once: the config
    is loaded once, at most one file is opened, credentials are retrieved
    at most once, the signer is called at most once and the request is
    sent at most once; nothing is tried again. *)
Theorem single_request (w : World) (f : awsCURLFlags) (args : list string) :
  (count is_CallLoadDefaultConfig (trace (runCurl w f args)) <= 1)%nat /\
  (count is_CallOpen (trace (runCurl w f args)) <= 1)%nat /\
  (count is_CallRetrieve (trace (runCurl w f args)) <= 1)%nat /\
  (count is_CallSignHTTP (trace (runCurl w f args)) <= 1)%nat /\
  (count is_CallDo (trace (runCurl w f args)) <= 1)%nat.
Proof.
  pose proof (runCurl_Run w f args) as HR.
  destruct HR; unfold until_signer, loaded, opened, sign_event;
    destruct (HasPrefix (data f) "@"); cbv [count]; simpl; lia.
Qed.

(** X9: a request is sent only right after it was signed: the call to the
    network comes immediately after the call to the signer, which comes
    immediately after the retrieval of the credentials; the request sent
    is the answer of that very call to the signer, and nothing before
    these calls reached the signer or the network. *)
Theorem network_follows_signer (w : World) (f : awsCURLFlags)
    (args : list string) (tr : Transport) (sent : Request) :
  In (CallDo tr sent) (trace (runCurl w f args)) ->
  exists before creds req h s r t after,
    trace (runCurl w f args)
    = before ++ [CallRetrieve; CallSignHTTP creds req h s r t; CallDo tr sent]
        ++ after /\
    SignHTTP w creds req h s r t = inr sent /\
    not_signed before /\ no_network_call before /\
    no_network_call after.
Proof.
  intro Hin. pose proof (runCurl_Run w f args) as HR.
  inversion HR as
    [ Ha | e Ha Hc | cfg e Ha Hc Hb | cfg body e Ha Hc Hb Hn
    | cfg body e Ha Hc Hb Hn Hh | cfg body req0 e Hp Hr
    | cfg body req0 creds e Hp Hr Hs | cfg body req0 creds req e Hp Hr Hs Hx
    | cfg body req0 creds req p e Hp Hr Hs Hx Hd
    | cfg body req0 creds req p resp e Hp Hr Hs Hx Hd Hf
    | cfg body req0 creds req p resp Hp Hr Hs Hx Hd Hf ];
    match goal with Ht : _ = trace _ |- _ => rewrite <- Ht in Hin end;
    events Hin; injection Hin as <- <-.
  1,2: exists (loaded f ++ opened f), creds, (replaced body req0),
         (hashSHA256 (unread body)), (awsService f), (resolved_region f cfg),
         (Now w), [].
  3: exists (loaded f ++ opened f), creds, (replaced body req0),
       (hashSHA256 (unread body)), (awsService f), (resolved_region f cfg),
       (Now w), [Stdout (unread (RespBody resp) ++ list_byte_of_string newline)].
  all: split; [unfold until_signer, sign_event; rewrite <- !app_assoc; reflexivity|];
    split; [exact Hs|]; repeat split; quiet.
Qed.

Lemma network_follows_signer_witness :
  exists before creds req h s r t after,
    trace (runCurl (Sample.world "us-east-1" (inr Sample.env_credentials))
             Sample.flags [Sample.url])
    = before
        ++ [CallRetrieve; CallSignHTTP creds req h s r t;
            CallDo {| InsecureSkipVerify := false; Proxy := None |}
              (Sample.signed Sample.env_credentials
                 (replaced (strings_NewReader "")
                    (fresh_request Sample.flags [Sample.url]
                       (strings_NewReader "")))
                 "execute-api" "us-east-1")]
        ++ after /\
    SignHTTP (Sample.world "us-east-1" (inr Sample.env_credentials))
      creds req h s r t
    = inr (Sample.signed Sample.env_credentials
             (replaced (strings_NewReader "")
                (fresh_request Sample.flags [Sample.url]
                   (strings_NewReader "")))
             "execute-api" "us-east-1") /\
    not_signed before /\ no_network_call before /\ no_network_call after.
Proof.
  apply (network_follows_signer
           (Sample.world "us-east-1" (inr Sample.env_credentials))
           Sample.flags [Sample.url]).
  vm_compute. auto.
Defined.

(** ** The transport *)

(** X10: the transport the request is sent with skips the verification of
    TLS certificates exactly when [--insecure] is given, and has a proxy
    exactly when [--proxy] is not empty, the one [url.Parse] made of it. *)
Theorem transport_of_request (w : World) (f : awsCURLFlags)
    (args : list string) (tr : Transport) (req : Request) :
  In (CallDo tr req) (trace (runCurl w f args)) ->
  InsecureSkipVerify tr = insecure f /\
  (proxy f = "" -> Proxy tr = None) /\
  (proxy f <> "" ->
   exists u, Parse w (proxy f) = inr u /\ Proxy tr = Some u).
Proof.
  intro Hin. apply network_call_inv in Hin; [|reflexivity].
  destruct Hin as (cfg & body & req0 & creds & req' & p & _ & _ & _ & Hx & Hev & _).
  injection Hev as -> ->. unfold proxy_source, nonempty in Hx. simpl.
  destruct (String.eqb_spec (proxy f) "") as [He|He]; simpl in Hx.
  - injection Hx as <-. repeat split; auto. intro H. contradiction.
  - destruct (Parse w (proxy f)) as [e|u]; [discriminate Hx|].
    injection Hx as <-. repeat split; eauto. intro H. contradiction.
Qed.

Lemma transport_of_request_witness :
  InsecureSkipVerify {| InsecureSkipVerify := false;
                        Proxy := Some "http://proxy:3128" |}
  = insecure (with_proxy "http://proxy:3128" Sample.flags) /\
  (proxy (with_proxy "http://proxy:3128" Sample.flags) = "" ->
   Proxy {| InsecureSkipVerify := false; Proxy := Some "http://proxy:3128" |}
   = None) /\
  (proxy (with_proxy "http://proxy:3128" Sample.flags) <> "" ->
   exists u,
     Parse (Sample.world "us-east-1" (inr Sample.env_credentials))
       (proxy (with_proxy "http://proxy:3128" Sample.flags)) = inr u /\
     Proxy {| InsecureSkipVerify := false; Proxy := Some "http://proxy:3128" |}
     = Some u).
Proof.
  apply (transport_of_request
           (Sample.world "us-east-1" (inr Sample.env_credentials))
           (with_proxy "http://proxy:3128" Sample.flags) [Sample.url]
           {| InsecureSkipVerify := false; Proxy := Some "http://proxy:3128" |}
           (Sample.signed Sample.env_credentials
              (replaced (strings_NewReader "")
                 (fresh_request Sample.flags [Sample.url]
                    (strings_NewReader "")))
              "execute-api" "us-east-1")).
  vm_compute. auto.
Defined.

(** X11: a proxy that [url.Parse] refuses is found out late: the request
    is never sent, but credentials may have been retrieved and the signer
    called by then; once the signer has answered with a request, the
    error returned is the one of [url.Parse]. *)
Theorem bad_proxy_never_sends (w : World) (f : awsCURLFlags)
    (args : list string) (e : string) :
  proxy f <> "" ->
  Parse w (proxy f) = inl e ->
  no_network_call (trace (runCurl w f args)) /\
  (exists err, outcome (runCurl w f args) = Fail err) /\
  (forall creds req h s r t sent,
      In (CallSignHTTP creds req h s r t) (trace (runCurl w f args)) ->
      SignHTTP w creds req h s r t = inr sent ->
      outcome (runCurl w f args) = Fail (External e)).
Proof.
  intros Hne Hparse.
  assert (Hx : proxy_source w f = inl e).
  { unfold proxy_source, nonempty.
    destruct (String.eqb_spec (proxy f) ""); [contradiction|].
    simpl. rewrite Hparse. reflexivity. }
  pose proof (runCurl_Run w f args) as HR.
  split; [|split].
  - destruct HR; try congruence; quiet.
  - destruct HR; try congruence; eauto.
  - intros creds req h s r t sent Hin Hsig.
    apply signer_call_inv in Hin; [|reflexivity].
    destruct Hin as (cfg & body & req0 & creds' & Hprep & Hret & Hev).
    injection Hev as -> -> -> -> -> ->.
    apply (Run_complete w f args _ _
             (run_proxy w f args cfg body req0 creds' sent e Hprep Hret Hsig Hx)).
Qed.

Lemma bad_proxy_never_sends_witness :
  no_network_call
    (trace (runCurl
              (failing_parse "parse ://proxy: missing protocol scheme"
                 (Sample.world "us-east-1" (inr Sample.env_credentials)))
              (with_proxy "://proxy" Sample.flags) [Sample.url])) /\
  outcome (runCurl
             (failing_parse "parse ://proxy: missing protocol scheme"
                (Sample.world "us-east-1" (inr Sample.env_credentials)))
             (with_proxy "://proxy" Sample.flags) [Sample.url])
  = Fail (External "parse ://proxy: missing protocol scheme").
Proof.
  assert (Hne : proxy (with_proxy "://proxy" Sample.flags) <> "")
    by discriminate.
  destruct (bad_proxy_never_sends
              (failing_parse "parse ://proxy: missing protocol scheme"
                 (Sample.world "us-east-1" (inr Sample.env_credentials)))
              (with_proxy "://proxy" Sample.flags) [Sample.url]
              "parse ://proxy: missing protocol scheme" Hne eq_refl)
    as (Hnet & _ & Hsig).
  split; [exact Hnet|].
  apply (Hsig Sample.env_credentials
           (replaced (strings_NewReader "")
              (fresh_request Sample.flags [Sample.url] (strings_NewReader "")))
           empty_digest "execute-api" "us-east-1" 1440938160
           (Sample.signed Sample.env_credentials
              (replaced (strings_NewReader "")
                 (fresh_request Sample.flags [Sample.url]
                    (strings_NewReader "")))
              "execute-api" "us-east-1")).
  - vm_compute. auto.
  - reflexivity.
Defined.

(** ** When a run ends well, and what it prints *)

(** X12: [runCurl] returns no error exactly when every step answers: there
    is one URL, the config loads, the body source is there, the request
    is accepted, every header has one colon, the credentials are
    retrieved, the signer signs, the proxy parses, the target answers and
    the answer is read to its end. *)
Theorem run_succeeds_iff (w : World) (f : awsCURLFlags) (args : list string) :
  outcome (runCurl w f args) = Ok tt
  <-> exists cfg body req0 creds req p response,
        prepared w f args cfg body req0 /\
        Retrieve (Credentials cfg) = inr creds /\
        sign_answer w f cfg body req0 creds = inr req /\
        proxy_source w f = inr p /\
        Do w (transport f p) req = inr response /\
        failure (RespBody response) = None.
Proof.
  split.
  - intro Ho. pose proof (runCurl_Run w f args) as HR. rewrite Ho in HR.
    inversion HR as
      [ | | | | cfg body e Ha Hc Hb Hn Hh | | | | |
      | cfg body req0 creds req p resp Hp Hr Hs Hx Hd Hf ]; subst.
    exists cfg, body, req0, creds, req, p, resp. auto 10.
  - intros (cfg & body & req0 & creds & req & p & resp
            & Hp & Hr & Hs & Hx & Hd & Hf).
    apply (Run_complete w f args _ _
             (run_print w f args cfg body req0 creds req p resp
                Hp Hr Hs Hx Hd Hf)).
Qed.

(** X13: when the target answers but reading the answer fails, the error
    of the read is returned and nothing is written to standard output,
    not even the bytes read before the error. *)
Theorem response_read_error (w : World) (f : awsCURLFlags)
    (args : list string) (tr : Transport) (req : Request)
    (response : Response) (e : string) :
  In (CallDo tr req) (trace (runCurl w f args)) ->
  Do w tr req = inr response ->
  failure (RespBody response) = Some e ->
  outcome (runCurl w f args) = Fail (External e) /\
  stdout (trace (runCurl w f args)) = [].
Proof.
  intros Hin Hdo Hf. apply network_call_inv in Hin; [|reflexivity].
  destruct Hin as (cfg & body & req0 & creds & req' & p
                   & Hp & Hr & Hs & Hx & Hev & _).
  injection Hev as -> ->.
  pose proof (run_read w f args cfg body req0 creds req' p response e
                Hp Hr Hs Hx Hdo Hf) as HR.
  destruct (Run_streams w f args _ _ HR) as [_ Hout].
  apply Run_complete in HR. destruct HR as [Ht Ho].
  rewrite Ht, Ho. auto.
Qed.

Lemma response_read_error_witness :
  outcome (runCurl
             (answering {| RespBody := {| unread := list_byte_of_string "par";
                                          failure := Some "unexpected EOF" |} |}
                (Sample.world "us-east-1" (inr Sample.env_credentials)))
             Sample.flags [Sample.url])
  = Fail (External "unexpected EOF") /\
  stdout (trace (runCurl
             (answering {| RespBody := {| unread := list_byte_of_string "par";
                                          failure := Some "unexpected EOF" |} |}
                (Sample.world "us-east-1" (inr Sample.env_credentials)))
             Sample.flags [Sample.url])) = [].
Proof.
  apply (response_read_error
           (answering {| RespBody := {| unread := list_byte_of_string "par";
                                        failure := Some "unexpected EOF" |} |}
              (Sample.world "us-east-1" (inr Sample.env_credentials)))
           Sample.flags [Sample.url]
           {| InsecureSkipVerify := false; Proxy := None |}
           (Sample.signed Sample.env_credentials
              (replaced (strings_NewReader "")
                 (fresh_request Sample.flags [Sample.url]
                    (strings_NewReader "")))
              "execute-api" "us-east-1")
           {| RespBody := {| unread := list_byte_of_string "par";
                             failure := Some "unexpected EOF" |} |}
           "unexpected EOF").
  - vm_compute. auto.
  - reflexivity.
  - reflexivity.
Defined.

(** X15: the process exits with 0 exactly when it wrote to standard
    output: on success at least the newline is written, on any error
    nothing is. *)
Theorem exit_code_and_stdout (w : World) (f : awsCURLFlags)
    (args : list string) :
  snd (main w f args) = 0 <-> stdout (fst (main w f args)) <> [].
Proof.
  destruct (Nat.eq_dec (List.length args) 1) as [H1|H1].
  - destruct (main_streams w f args H1) as [Ht Hc]. rewrite Ht, Hc.
    pose proof (runCurl_Run w f args) as HR.
    destruct (Run_streams w f args _ _ HR) as [_ Hout].
    rewrite stdout_app.
    destruct (outcome (runCurl w f args)) as [u|e].
    + destruct Hout as (tr & req & resp & _ & _ & _ & Hout). rewrite Hout.
      split; [|reflexivity]. intros _ H.
      apply app_eq_nil in H. destruct H as [H _].
      apply app_eq_nil in H. destruct H as [_ H]. discriminate H.
    + rewrite Hout. simpl. split; intro H; [discriminate H | contradiction].
  - destruct (main_Execute w f args) as [Ht Hc].
    destruct (Execute_other w f args H1) as (err & He).
    rewrite Ht, Hc, He. unfold trace, outcome. cbn [fst snd].
    split; intro H; [discriminate H | contradiction].
Qed.

(** ** The header loop *)

Lemma add_headers_first_invalid (hs : list string) (req : Request) (h : string) :
  outcome (add_headers hs req) = Fail (InvalidHeader h) ->
  exists before after,
    hs = before ++ h :: after /\
    Forall (fun x => colons x = 1%nat) before /\
    colons h <> 1%nat.
Proof.
  revert req; induction hs as [|x hs IH]; intros req H; simpl in H.
  - discriminate H.
  - destruct (List.length (Split x ":") =? 2)%nat eqn:E; simpl in H.
    + apply IH in H. destruct H as (before & after & -> & Hall & Hh).
      exists (x :: before), after. repeat split; auto.
      constructor; [|exact Hall]. apply one_colon_iff. exact E.
    + injection H as <-. exists [], hs. repeat split; auto.
      intro Hc. apply one_colon_iff in Hc. unfold one_colon in Hc. congruence.
Qed.

(** X16: the header loop accepts a list of flag values exactly when each
    of them holds one colon and no more; nothing else is asked of a
    header, so an empty name or an empty value passes. *)
Theorem headers_accepted_iff (hs : list string) (req : Request) :
  (exists req', outcome (add_headers hs req) = Ok req')
  <-> Forall (fun h => colons h = 1%nat) hs.
Proof.
  split.
  - intros (req' & H). apply add_headers_ok in H. destruct H as (Hall & _).
    rewrite forallb_forall in Hall. apply Forall_forall.
    intros h Hin. apply one_colon_iff, Hall, Hin.
  - intro H. destruct (add_headers_all hs req) as (req' & Heq).
    + apply forallb_forall. rewrite Forall_forall in H.
      intros h Hin. apply one_colon_iff, H, Hin.
    + exists req'. unfold outcome. rewrite Heq. reflexivity.
Qed.

(** X17: the invalid-header error of a run names the first flag value, in
    the order of the command line, that does not hold exactly one colon;
    the values before it were all accepted. *)
Theorem first_invalid_header_is_reported (w : World) (f : awsCURLFlags)
    (args : list string) (h : string) :
  outcome (runCurl w f args) = Fail (InvalidHeader h) ->
  exists before after,
    headers f = before ++ h :: after /\
    Forall (fun x => colons x = 1%nat) before /\
    colons h <> 1%nat.
Proof.
  intro Ho. pose proof (runCurl_Run w f args) as HR. rewrite Ho in HR.
  inversion HR as
    [ | | | | cfg body e Ha Hc Hb Hn Hh | | | | | | ]; subst.
  eapply add_headers_first_invalid, Hh.
Qed.

Lemma first_invalid_header_is_reported_witness :
  exists before after,
    headers (with_headers ["Accept: */*"; "BadHeader"; "a:b:c"] Sample.flags)
    = before ++ "BadHeader" :: after /\
    Forall (fun x => colons x = 1%nat) before /\
    colons "BadHeader" <> 1%nat.
Proof.
  apply (first_invalid_header_is_reported
           (Sample.world "us-east-1" (inr Sample.env_credentials))
           (with_headers ["Accept: */*"; "BadHeader"; "a:b:c"] Sample.flags)
           [Sample.url]).
  vm_compute. reflexivity.
Defined.

Lemma string_app_assoc (a b c : string) :
  ((a ++ b) ++ c)%string = (a ++ (b ++ c))%string.
Proof. induction a as [|x a IH]; simpl; [|rewrite IH]; reflexivity. Qed.

(** X18: for a refused header the process writes on standard error the
    message of [runCurl] behind the prefix of cobra, so that [Error: ]
    stands twice, and exits with 1. *)
Theorem invalid_header_message (w : World) (f : awsCURLFlags)
    (args : list string) (h : string) :
  outcome (runCurl w f args) = Fail (InvalidHeader h) ->
  stderr (fst (main w f args))
  = ("Error: Error: Invalid header: " ++ h
       ++ ". It should be in the format " ++ quote ++ "Name: Value" ++ quote
       ++ newline)%string /\
  snd (main w f args) = 1.
Proof.
  intro Ho. pose proof (runCurl_Run w f args) as HR.
  assert (H1 : List.length args = 1%nat).
  { rewrite Ho in HR. inversion HR; subst; assumption. }
  destruct (main_streams w f args H1) as [Ht Hc]. rewrite Ht, Hc, Ho.
  destruct (Run_streams w f args _ _ HR) as [Herr _].
  rewrite stderr_app, Herr, stderr_report. split; [|reflexivity].
  cbn [Error]. rewrite !string_app_assoc. reflexivity.
Qed.

Lemma invalid_header_message_witness :
  stderr (fst (main (Sample.world "us-east-1" (inr Sample.env_credentials))
                 (with_headers ["BadHeader"] Sample.flags) [Sample.url]))
  = ("Error: Error: Invalid header: BadHeader. It should be in the format "
       ++ quote ++ "Name: Value" ++ quote ++ newline)%string /\
  snd (main (Sample.world "us-east-1" (inr Sample.env_credentials))
         (with_headers ["BadHeader"] Sample.flags) [Sample.url]) = 1.
Proof.
  apply (invalid_header_message
           (Sample.world "us-east-1" (inr Sample.env_credentials))
           (with_headers ["BadHeader"] Sample.flags) [Sample.url] "BadHeader").
  vm_compute. reflexivity.
Defined.

(** ** Names and values of the headers *)

Lemma Split_parts_no_colon (s : string) :
  Forall (fun p => colons p = 0%nat) (Split s ":").
Proof.
  induction s as [|c s IH]; simpl.
  - repeat constructor.
  - destruct (Ascii.eqb c ":") eqn:E.
    + constructor; [reflexivity | exact IH].
    + destruct (Split s ":") as [|p ps].
      * repeat constructor. simpl. rewrite E. reflexivity.
      * inversion IH as [|? ? Hp Hps]; subst. constructor; [|exact Hps].
        simpl. rewrite E, Hp. reflexivity.
Qed.

Lemma nth_part_no_colon (s : string) (i : nat) :
  colons (nth i (Split s ":") "") = 0%nat.
Proof.
  pose proof (Split_parts_no_colon s) as H. rewrite Forall_forall in H.
  destruct (nth_in_or_default i (Split s ":") "") as [Hin| ->]; auto.
Qed.

Lemma colons_chars (s : string) :
  colons s = 0%nat <-> ~ In ":"%char (list_ascii_of_string s).
Proof.
  induction s as [|c s IH]; simpl.
  - tauto.
  - destruct (Ascii.eqb_spec c ":") as [->|Hne]; simpl.
    + split; [discriminate | intro H; exfalso; apply H; left; reflexivity].
    + rewrite IH. split; intro H; [intros [Hc|Hc]; congruence | tauto].
Qed.

(** What is left after a strip is the end of the string. *)
Lemma strip_suffix (p : list Z) (s s' : list ascii) :
  strip p s = Some s' -> exists pre, s = pre ++ s'.
Proof.
  revert s; induction p as [|x p IH]; intros s H; simpl in H.
  - injection H as ->. exists []. reflexivity.
  - destruct s as [|c s]; [discriminate H|].
    destruct (code c =? x); [|discriminate H].
    destruct (IH _ H) as (pre & ->). exists (c :: pre). reflexivity.
Qed.

Lemma strip_first_suffix (ps : list (list Z)) (s s' : list ascii) :
  strip_first ps s = Some s' -> exists pre, s = pre ++ s'.
Proof.
  induction ps as [|p ps IH]; simpl; [discriminate|].
  destruct (strip p s) as [s0|] eqn:E; intro H.
  - injection H as <-. eapply strip_suffix, E.
  - apply IH, H.
Qed.

Lemma trim_left_suffix (ps : list (list Z)) (fuel : nat) (s : list ascii) :
  exists pre, s = pre ++ trim_left ps fuel s.
Proof.
  revert s; induction fuel as [|fuel IH]; intro s; simpl.
  - exists []. reflexivity.
  - destruct (strip_first ps s) as [s'|] eqn:E.
    + destruct (strip_first_suffix _ _ _ E) as (pre & ->).
      destruct (IH s') as (pre' & Hs').
      exists (pre ++ pre'). rewrite <- app_assoc, <- Hs'. reflexivity.
    + exists []. reflexivity.
Qed.

(** [TrimSpace] cuts a piece out of the string: some bytes before it and
    some after it are dropped, none is changed. *)
Lemma TrimSpace_piece (s : string) :
  exists pre post,
    list_ascii_of_string s
    = pre ++ list_ascii_of_string (TrimSpace s) ++ post.
Proof.
  unfold TrimSpace, TrimRightSpace, TrimLeftSpace.
  rewrite list_ascii_of_string_of_list_ascii.
  set (l := list_ascii_of_string s).
  destruct (trim_left_suffix space_encodings (List.length l) l) as (pre & Hl).
  set (m := trim_left space_encodings (List.length l) l) in *.
  destruct (trim_left_suffix (map (@rev Z) space_encodings)
              (List.length m) (rev m)) as (post & Hm).
  exists pre, (rev post).
  rewrite <- rev_app_distr, <- Hm, rev_involutive. exact Hl.
Qed.

Lemma TrimSpace_no_colon (s : string) :
  colons s = 0%nat -> colons (TrimSpace s) = 0%nat.
Proof.
  rewrite !colons_chars. intros H Hin. apply H.
  destruct (TrimSpace_piece s) as (pre & post & ->).
  apply in_or_app. right. apply in_or_app. left. exact Hin.
Qed.

Lemma strip_app (p : list Z) (s s' x : list ascii) :
  strip p s = Some s' -> strip p (s ++ x) = Some (s' ++ x).
Proof.
  revert s; induction p as [|y p IH]; intros s H; simpl in *.
  - injection H as ->. reflexivity.
  - destruct s as [|c s]; [discriminate H|]. simpl.
    destruct (code c =? y); [apply IH, H | discriminate H].
Qed.

Lemma strip_first_app_none (ps : list (list Z)) (s x : list ascii) :
  strip_first ps (s ++ x) = None -> strip_first ps s = None.
Proof.
  induction ps as [|p ps IH]; simpl; [reflexivity|].
  destruct (strip p (s ++ x)) eqn:E; [discriminate|]. intro H.
  destruct (strip p s) as [s'|] eqn:E'.
  - apply (strip_app _ _ _ x) in E'. congruence.
  - apply IH, H.
Qed.

Lemma trim_left_fixed (ps : list (list Z)) (fuel : nat) (s : list ascii) :
  strip_first ps s = None -> trim_left ps fuel s = s.
Proof. intro H. destruct fuel; simpl; [|rewrite H]; reflexivity. Qed.

Lemma reversed_encodings_nonempty :
  Forall (fun p : list Z => p <> []) (map (@rev Z) space_encodings).
Proof. simpl. repeat constructor; discriminate. Qed.

(** What [TrimSpace] returns starts with no space and ends with none. *)
Lemma TrimSpace_trimmed (s : string) :
  strip_first space_encodings (list_ascii_of_string (TrimSpace s)) = None /\
  strip_first (map (@rev Z) space_encodings)
    (rev (list_ascii_of_string (TrimSpace s))) = None.
Proof.
  unfold TrimSpace, TrimRightSpace.
  rewrite list_ascii_of_string_of_list_ascii.
  set (m := TrimLeftSpace (list_ascii_of_string s)).
  pose proof (TrimLeftSpace_done (list_ascii_of_string s)) as Hm. fold m in Hm.
  destruct (trim_left_suffix (map (@rev Z) space_encodings)
              (List.length m) (rev m)) as (post & Hpost).
  set (q := trim_left (map (@rev Z) space_encodings) (List.length m) (rev m)) in *.
  split.
  - apply (strip_first_app_none _ _ (rev post)).
    rewrite <- rev_app_distr, <- Hpost, rev_involutive. exact Hm.
  - rewrite rev_involutive. unfold q.
    apply trim_left_done; [apply reversed_encodings_nonempty|].
    rewrite length_rev. apply Nat.le_refl.
Qed.

Lemma TrimSpace_idempotent (s : string) :
  TrimSpace (TrimSpace s) = TrimSpace s.
Proof.
  destruct (TrimSpace_trimmed s) as [Hl Hr].
  set (r := TrimSpace s) in *. unfold TrimSpace at 1.
  unfold TrimLeftSpace. rewrite (trim_left_fixed _ _ _ Hl).
  unfold TrimRightSpace. rewrite (trim_left_fixed _ _ _ Hr).
  rewrite rev_involutive. apply string_of_list_ascii_of_string.
Qed.

(** *** The canonical form of a header key *)

Lemma code_inv (c : ascii) : ascii_of_code (code c) = c.
Proof.
  unfold ascii_of_code, code. rewrite N2Z.id. apply ascii_N_embedding.
Qed.

Ltac every_byte c :=
  destruct c as [[] [] [] [] [] [] [] []].

Lemma canonical_byte_valid (u : bool) (c : ascii) :
  validHeaderFieldByte c = true ->
  validHeaderFieldByte (canonical_byte u c) = true.
Proof.
  destruct u; every_byte c; vm_compute; intro H;
    (reflexivity || discriminate H).
Qed.

Lemma canonical_byte_again (u : bool) (c : ascii) :
  canonical_byte u (canonical_byte u c) = canonical_byte u c.
Proof. destruct u; every_byte c; vm_compute; reflexivity. Qed.

Lemma canonical_valid (u : bool) (a : list ascii) :
  forallb validHeaderFieldByte a = true ->
  forallb validHeaderFieldByte (canonical u a) = true.
Proof.
  revert u; induction a as [|c a IH]; intros u H; simpl in *; [reflexivity|].
  apply andb_true_iff in H. destruct H as [Hc Ha].
  rewrite (canonical_byte_valid u c Hc). apply IH, Ha.
Qed.

Lemma canonical_again (u : bool) (a : list ascii) :
  canonical u (canonical u a) = canonical u a.
Proof.
  revert u; induction a as [|c a IH]; intro u; simpl; [reflexivity|].
  rewrite canonical_byte_again, IH. reflexivity.
Qed.

Example CanonicalMIMEHeaderKey_examples :
  CanonicalMIMEHeaderKey "content-type" = "Content-Type" /\
  CanonicalMIMEHeaderKey "x-amz-DATE" = "X-Amz-Date" /\
  CanonicalMIMEHeaderKey "ETag" = "Etag" /\
  CanonicalMIMEHeaderKey "content type" = "content type" /\
  CanonicalMIMEHeaderKey "" = "".
Proof. repeat split. Qed.

(** A key in canonical form is its own canonical form. *)
Lemma CanonicalMIMEHeaderKey_idempotent (k : string) :
  CanonicalMIMEHeaderKey (CanonicalMIMEHeaderKey k) = CanonicalMIMEHeaderKey k.
Proof.
  unfold CanonicalMIMEHeaderKey.
  destruct (forallb validHeaderFieldByte (list_ascii_of_string k)) eqn:E.
  - rewrite list_ascii_of_string_of_list_ascii, (canonical_valid _ _ E),
      canonical_again.
    reflexivity.
  - rewrite E. reflexivity.
Qed.

Lemma valid_no_colon (s : string) :
  forallb validHeaderFieldByte (list_ascii_of_string s) = true ->
  colons s = 0%nat.
Proof.
  intro H. apply colons_chars. intro Hin.
  rewrite forallb_forall in H. apply H in Hin. discriminate Hin.
Qed.

Lemma strip_first_valid (ps : list (list Z)) (a : list ascii) :
  forallb starts_outside_tokens ps = true ->
  forallb validHeaderFieldByte a = true ->
  strip_first ps a = None.
Proof.
  intros Hps Ha. induction ps as [|p ps IH]; simpl in *; [reflexivity|].
  apply andb_true_iff in Hps. destruct Hps as [Hp Hps].
  destruct p as [|x p]; [discriminate Hp|].
  destruct a as [|c a]; simpl; [apply IH, Hps|].
  destruct (code c =? x) eqn:E; [|apply IH, Hps].
  apply Z.eqb_eq in E. subst x. simpl in Hp. rewrite code_inv in Hp.
  simpl in Ha. apply andb_true_iff in Ha. destruct Ha as [Hc _].
  rewrite Hc in Hp. discriminate Hp.
Qed.

Lemma forallb_rev {A} (p : A -> bool) (l : list A) :
  forallb p l = true -> forallb p (rev l) = true.
Proof.
  rewrite !forallb_forall. intros H x Hin. apply H, in_rev, Hin.
Qed.

(** A string of token bytes has no space at either end. *)
Lemma valid_trimmed (s : string) :
  forallb validHeaderFieldByte (list_ascii_of_string s) = true ->
  TrimSpace s = s.
Proof.
  intro H. unfold TrimSpace, TrimLeftSpace.
  rewrite trim_left_fixed by (apply strip_first_valid; [reflexivity|exact H]).
  unfold TrimRightSpace.
  rewrite trim_left_fixed
    by (apply strip_first_valid; [reflexivity|apply forallb_rev, H]).
  rewrite rev_involutive. apply string_of_list_ascii_of_string.
Qed.

(** The canonical form of a key keeps it free of colons and trimmed. *)
Lemma CanonicalMIMEHeaderKey_clean (k : string) :
  clean k -> clean (CanonicalMIMEHeaderKey k).
Proof.
  intro Hk. unfold CanonicalMIMEHeaderKey.
  destruct (forallb validHeaderFieldByte (list_ascii_of_string k)) eqn:E;
    [|exact Hk].
  apply (canonical_valid true) in E. split.
  - apply valid_no_colon. rewrite list_ascii_of_string_of_list_ascii. exact E.
  - apply valid_trimmed. rewrite list_ascii_of_string_of_list_ascii. exact E.
Qed.

Lemma parsed_header_clean (h : string) :
  clean (fst (parsed_header h)) /\ clean (snd (parsed_header h)).
Proof.
  unfold parsed_header, clean. simpl.
  repeat split; auto using TrimSpace_no_colon, nth_part_no_colon,
    TrimSpace_idempotent.
Qed.

(** *** The header map *)

Lemma keys_append_value (x k v : string) (h : MIMEHeader) :
  In x (map fst (append_value k v h)) <-> x = k \/ In x (map fst h).
Proof.
  induction h as [|[k' vs] h IH]; simpl.
  - intuition congruence.
  - destruct (String.eqb k' k) eqn:E; simpl.
    + apply String.eqb_eq in E. subst k'. intuition congruence.
    + rewrite IH. intuition congruence.
Qed.

Lemma append_value_NoDup (k v : string) (h : MIMEHeader) :
  NoDup (map fst h) -> NoDup (map fst (append_value k v h)).
Proof.
  induction h as [|[k' vs] h IH]; simpl; intro H.
  - repeat constructor. intros [].
  - inversion H as [|? ? Hnin Hnd]; subst.
    destruct (String.eqb k' k) eqn:E; simpl.
    + exact H.
    + constructor; [|apply IH, Hnd].
      rewrite keys_append_value. intros [->|Hin]; [|contradiction].
      rewrite String.eqb_refl in E. discriminate E.
Qed.

Lemma append_value_Forall (P : string -> Prop) (Q : string -> Prop)
    (k v : string) (h : MIMEHeader) :
  P k -> Q v ->
  Forall (fun kv => P (fst kv) /\ Forall Q (snd kv)) h ->
  Forall (fun kv => P (fst kv) /\ Forall Q (snd kv)) (append_value k v h).
Proof.
  intros Hk Hv. induction h as [|[k' vs] h IH]; simpl; intro H.
  - repeat constructor; assumption.
  - inversion H as [|? ? [Hk' Hvs] Hh]; subst. simpl in *.
    destruct (String.eqb k' k).
    + constructor; [|exact Hh]. simpl. split; [exact Hk'|].
      apply Forall_app. split; [exact Hvs|]. repeat constructor. exact Hv.
    + constructor; [split; assumption | apply IH, Hh].
Qed.

(** What the header loop keeps true of the header map. *)
Lemma add_all_kept (kvs : list (string * string)) (h : MIMEHeader) :
  Forall (fun kv => clean (fst kv) /\ clean (snd kv)) kvs ->
  NoDup (map fst h) /\
  Forall (fun kv => (clean (fst kv) /\
                     CanonicalMIMEHeaderKey (fst kv) = fst kv) /\
                    Forall clean (snd kv)) h ->
  NoDup (map fst (add_all kvs h)) /\
  Forall (fun kv => (clean (fst kv) /\
                     CanonicalMIMEHeaderKey (fst kv) = fst kv) /\
                    Forall clean (snd kv)) (add_all kvs h).
Proof.
  revert h; induction kvs as [|[k v] kvs IH]; intros h Hkvs [Hnd Hh].
  - split; assumption.
  - inversion Hkvs as [|? ? [Hk Hv] Hrest]; subst. simpl in *.
    unfold add_all in *. simpl. apply IH; [exact Hrest|]. split.
    + apply append_value_NoDup, Hnd.
    + apply (append_value_Forall
               (fun k => clean k /\ CanonicalMIMEHeaderKey k = k) clean);
        [|exact Hv|exact Hh].
      split; [apply CanonicalMIMEHeaderKey_clean, Hk
             |apply CanonicalMIMEHeaderKey_idempotent].
Qed.

(** X19: whatever the flags, the header map of the request handed to the
    signer holds every key once, and every key in the canonical form of a
    MIME header key; no key and no value holds a colon, and every key and
    every value is trimmed: trimming it again changes nothing. *)
Theorem signed_headers_are_clean (w : World) (f : awsCURLFlags)
    (args : list string) creds req h s r t :
  In (CallSignHTTP creds req h s r t) (trace (runCurl w f args)) ->
  NoDup (map fst (Header req)) /\
  Forall (fun kv =>
            (clean (fst kv) /\ CanonicalMIMEHeaderKey (fst kv) = fst kv) /\
            Forall clean (snd kv))
         (Header req).
Proof.
  intro Hin. apply signer_call_inv in Hin; [|reflexivity].
  destruct Hin as (cfg & body & req0 & creds' & Hprep & _ & Hev).
  destruct Hprep as (_ & _ & _ & _ & Hh).
  apply add_headers_ok in Hh. destruct Hh as (_ & _ & _ & _ & Hhd).
  injection Hev as -> -> -> -> -> ->. simpl in *. rewrite Hhd.
  apply add_all_kept.
  - apply Forall_forall. intros kv Hkv. apply in_map_iff in Hkv.
    destruct Hkv as (x & <- & _). apply parsed_header_clean.
  - split; constructor.
Qed.

Lemma signed_headers_are_clean_witness :
  In (CallSignHTTP Sample.env_credentials
        {| Method := "GET"; URL := Sample.url;
           Header := [("Content-Type", ["text/plain"; "text/html"]);
                      ("X-Empty", [""])];
           Body := Some (strings_NewReader "") |}
        empty_digest "execute-api" "us-east-1" 1440938160)
     (trace (runCurl (Sample.world "us-east-1" (inr Sample.env_credentials))
               (with_headers ["content-type : text/plain "; "X-Empty:";
                              "Content-Type: text/html"]
                  Sample.flags)
               [Sample.url])) /\
  NoDup ["Content-Type"; "X-Empty"] /\
  Forall (fun kv =>
            (clean (fst kv) /\ CanonicalMIMEHeaderKey (fst kv) = fst kv) /\
            Forall clean (snd kv))
         [("Content-Type", ["text/plain"; "text/html"]); ("X-Empty", [""])].
Proof.
  assert (Hin : In (CallSignHTTP Sample.env_credentials
        {| Method := "GET"; URL := Sample.url;
           Header := [("Content-Type", ["text/plain"; "text/html"]);
                      ("X-Empty", [""])];
           Body := Some (strings_NewReader "") |}
        empty_digest "execute-api" "us-east-1" 1440938160)
     (trace (runCurl (Sample.world "us-east-1" (inr Sample.env_credentials))
               (with_headers ["content-type : text/plain "; "X-Empty:";
                              "Content-Type: text/html"]
                  Sample.flags)
               [Sample.url]))).
  { vm_compute. auto. }
  split; [exact Hin|].
  exact (signed_headers_are_clean
           (Sample.world "us-east-1" (inr Sample.env_credentials))
           (with_headers ["content-type : text/plain "; "X-Empty:";
                          "Content-Type: text/html"] Sample.flags)
           [Sample.url] _ _ _ _ _ _ Hin).
Defined.

(** ** The defaults of the flags *)

(** X20: with nothing on the command line but the URL, the flags have the
    values [init] registers, and then a request that is sent is sent with
    TLS verification on and without a proxy, no config source was handed to
    the SDK, and the request is the one the signer returned when it was
    called, at the time of the clock and for the service [execute-api],
    with the digest of the empty body and a [GET] request for the URL
    without headers and with an empty body. *)
Theorem default_invocation (w : World) (url : string) (tr : Transport)
    (sent : Request) :
  In (CallDo tr sent) (trace (runCurl w default_flags [url])) ->
  tr = {| InsecureSkipVerify := false; Proxy := None |} /\
  In (CallLoadDefaultConfig []) (trace (runCurl w default_flags [url])) /\
  exists creds region,
    In (CallSignHTTP creds
          {| Method := "GET"; URL := url; Header := [];
             Body := Some (bytes_NewReader []) |}
          "e3b0c44298fc1c149afbf4c8996fb92427ae41e4649b934ca495991b7852b855"
          "execute-api" region (Now w))
       (trace (runCurl w default_flags [url])) /\
    SignHTTP w creds
      {| Method := "GET"; URL := url; Header := [];
         Body := Some (bytes_NewReader []) |}
      "e3b0c44298fc1c149afbf4c8996fb92427ae41e4649b934ca495991b7852b855"
      "execute-api" region (Now w)
    = inr sent.
Proof.
  intro Hin. pose proof Hin as Hdo.
  apply network_call_inv in Hin; [|reflexivity].
  destruct Hin as (cfg & body & req0 & creds & req & p
                   & Hprep & _ & Hs & Hx & Hev & Hsig).
  injection Hev as -> ->. unfold proxy_source in Hx. simpl in Hx.
  injection Hx as <-. split; [reflexivity|].
  destruct Hprep as (_ & _ & Hb & _ & Hh).
  unfold body_source in Hb. simpl in Hb. injection Hb as <-.
  simpl in Hh. unfold outcome, ret in Hh. simpl in Hh. injection Hh as <-.
  split.
  - pose proof (runCurl_Run w default_flags [url]) as HR.
    destruct HR; simpl; auto; events Hdo; discriminate.
  - exists creds, (resolved_region default_flags cfg). split.
    + exact Hsig.
    + exact Hs.
Qed.

Lemma default_invocation_witness :
  In (CallDo {| InsecureSkipVerify := false; Proxy := None |}
        (Sample.signed Sample.env_credentials
           {| Method := "GET"; URL := Sample.url; Header := [];
              Body := Some (bytes_NewReader []) |}
           "execute-api" "us-east-1"))
     (trace (runCurl (Sample.world "us-east-1" (inr Sample.env_credentials))
               default_flags [Sample.url])) /\
  In (CallSignHTTP Sample.env_credentials
        {| Method := "GET"; URL := Sample.url; Header := [];
           Body := Some (bytes_NewReader []) |}
        "e3b0c44298fc1c149afbf4c8996fb92427ae41e4649b934ca495991b7852b855"
        "execute-api" "us-east-1" 1440938160)
     (trace (runCurl (Sample.world "us-east-1" (inr Sample.env_credentials))
               default_flags [Sample.url])).
Proof.
  assert (H : In (CallDo {| InsecureSkipVerify := false; Proxy := None |}
        (Sample.signed Sample.env_credentials
           {| Method := "GET"; URL := Sample.url; Header := [];
              Body := Some (bytes_NewReader []) |}
           "execute-api" "us-east-1"))
     (trace (runCurl (Sample.world "us-east-1" (inr Sample.env_credentials))
               default_flags [Sample.url]))).
  { vm_compute. auto. }
  split; [exact H|].
  destruct (default_invocation _ _ _ _ H)
    as (_ & _ & creds & region & Hsig & _).
  vm_compute in Hsig. vm_compute.
  destruct Hsig as [Hsig|[Hsig|[Hsig|[Hsig|[Hsig|[]]]]]];
    try discriminate Hsig.
  injection Hsig as <- <-. auto.
Defined.

(** ** A request that cannot be built *)

(** X21: when [http.NewRequest] refuses the method or the URL, its error
    is returned as it is and nothing is retrieved, signed or sent; the
    payload file, if [--data] names one, was opened before the URL was
    looked at. *)
Theorem refused_request_stops_run (w : World) (f : awsCURLFlags)
    (url e : string) (cfg : Config) (body : Reader) :
  LoadDefaultConfig w (cfgSources f) = inr cfg ->
  body_source w f = inr body ->
  NewRequest_error w (method f) url = Some e ->
  runCurl w f [url]
  = (CallLoadDefaultConfig (cfgSources f)
       :: (if HasPrefix (data f) "@" then [CallOpen (from1 (data f))] else []),
     Fail (External e)).
Proof.
  intros Hc Hb Hn.
  pose proof (run_request w f [url] cfg body e eq_refl Hc Hb Hn) as HR.
  apply Run_complete in HR. destruct HR as [Ht Hr].
  unfold trace, outcome in *. destruct (runCurl w f [url]) as [t r].
  simpl in *. subst. reflexivity.
Qed.

Lemma refused_request_stops_run_witness :
  runCurl (refusing_request "parse ht tp://x: first path segment in URL cannot contain colon"
             (Sample.world "us-east-1" (inr Sample.env_credentials)))
          (with_data "@payload.json" Sample.flags) ["ht tp://x"]
  = ([CallLoadDefaultConfig (cfgSources (with_data "@payload.json" Sample.flags));
      CallOpen "payload.json"],
     Fail (External "parse ht tp://x: first path segment in URL cannot contain colon")).
Proof.
  exact (refused_request_stops_run
           (refusing_request "parse ht tp://x: first path segment in URL cannot contain colon"
              (Sample.world "us-east-1" (inr Sample.env_credentials)))
           (with_data "@payload.json" Sample.flags) "ht tp://x"
           "parse ht tp://x: first path segment in URL cannot contain colon"
           _ _ eq_refl eq_refl eq_refl).
Defined.
